(** * larkbot-demo: the JSON-RPC tool dispatcher and its two transports

    A shallow embedding of [src/mcp/server.ts] (SSE + HTTP command ingress)
    and [src/mcp/tavily.ts] (line-delimited stdio), with the properties the
    specification states about them.

    Layout:
    - [Js]      the fragment of JavaScript the two files rely on: JSON values,
                the coercions, thrown values, promises that settle;
    - [Rpc]     the response envelope and the tool registry shape shared by
                the two files;
    - [Server]  server.ts: tools, [handleRpc], [broadcast], the SSE accept
                handler and the command endpoint;
    - [Tavily]  tavily.ts: tools, [handleRpc], the stdin loop;
    - the vocabulary of the statements and a sample host;
    - the theorems: dispatcher, registry, SSE transport, stdio transport. *)

From Stdlib Require Import List String Ascii ZArith Lia Bool Sorted DecimalString.
From Equations Require Import Equations.
Import ListNotations.
Open Scope string_scope.
Set Warnings "-register-all".

(* ================================================================== *)
(** * JavaScript values *)
(* ================================================================== *)

Module Js.

(** What the embedding takes from the JavaScript engine without looking
    inside: the IEEE-754 numbers with their addition and conversions, and the
    text of a stack trace.  Every theorem below holds for every host. *)
Class JsHost := {
  num : Type;
  (** an integer literal of the source, such as [0] or [-32000] *)
  num_of_Z : Z -> num;
  (** [a + b] on two numbers *)
  num_add : num -> num -> num;
  (** [ToBoolean] is false: [+0], [-0], [NaN] *)
  num_is_falsy : num -> bool;
  (** [Number::toString] *)
  num_to_string : num -> string;
  (** [StringToNumber], the conversion behind [Number("...")] *)
  string_to_num : string -> num;
  num_nan : num;
  (** the [stack] of an error object: constructor name, then message *)
  error_stack : string -> string -> string
}.

Section Values.
Context {host : JsHost}.

(** A value as [JSON.parse] or an object literal builds it.  The fields of an
    object are its own properties, in insertion order; their keys are
    distinct in every value the program meets. *)
Inductive value :=
| VUndefined
| VNull
| VBool (b : bool)
| VNum (n : num)
| VStr (s : string)
| VArr (items : list value)
| VObj (fields : list (string * value)).

(** [ToBoolean] *)
Definition truthy (v : value) : bool :=
  match v with
  | VUndefined | VNull => false
  | VBool b => b
  | VNum n => negb (num_is_falsy n)
  | VStr s => negb (String.eqb s "")
  | VArr _ | VObj _ => true
  end.

(** [a || b] *)
Definition js_or (a b : value) : value := if truthy a then a else b.

(** [a ?? b] *)
Definition nullish (v : value) : bool :=
  match v with VUndefined | VNull => true | _ => false end.

Definition js_coalesce (a b : value) : value := if nullish a then b else a.

(** What is thrown, seen through the two properties a [catch] block of the
    source reads: [err?.message] and [err?.stack]. *)
Record thrown := { thrown_message : value; thrown_stack : value }.

Definition Error (msg : string) : thrown :=
  {| thrown_message := VStr msg; thrown_stack := VStr (error_stack "Error" msg) |}.

Definition TypeError (msg : string) : thrown :=
  {| thrown_message := VStr msg; thrown_stack := VStr (error_stack "TypeError" msg) |}.

(** A call that returns or throws; for an [async] function, a promise that is
    fulfilled or rejected. *)
Inductive outcome (A : Type) :=
| Returned (a : A)
| Thrown (e : thrown).
Arguments Returned {A} a.
Arguments Thrown {A} e.

Definition bind {A B : Type} (o : outcome A) (k : A -> outcome B) : outcome B :=
  match o with
  | Returned a => k a
  | Thrown e => Thrown e
  end.

Fixpoint assoc {A : Type} (k : string) (l : list (string * A)) : option A :=
  match l with
  | [] => None
  | (k', a) :: rest => if String.eqb k k' then Some a else assoc k rest
  end.

(** [ToPrimitive] on what [JSON.parse] builds.  A plain object is converted
    by the [toString] it inherits, unless an own [toString] property shadows
    it: no JSON value is callable, [valueOf] gives the object back, and the
    conversion throws.  An array is converted by [join], which converts its
    elements other than [null] and [undefined]. *)
Fixpoint convertible (v : value) : bool :=
  match v with
  | VObj fields =>
      match assoc "toString" fields with Some _ => false | None => true end
  | VArr items =>
      (fix all (l : list value) : bool :=
         match l with
         | [] => true
         | x :: rest => convertible x && all rest
         end) items
  | _ => true
  end.

(** The message V8 gives the [TypeError] of a failed [ToPrimitive]. *)
Definition cannot_convert : string := "Cannot convert object to primitive value".

(** The string [ToString] gives a convertible value.  An array prints its
    elements joined by commas, [null] and [undefined] elements as the empty
    string; a plain object prints as [[object Object]]. *)
Fixpoint string_of (v : value) : string :=
  match v with
  | VUndefined => "undefined"
  | VNull => "null"
  | VBool true => "true"
  | VBool false => "false"
  | VNum n => num_to_string n
  | VStr s => s
  | VArr items =>
      (fix join (l : list value) : string :=
         match l with
         | [] => ""
         | x :: rest =>
             let sx := match x with
                       | VUndefined | VNull => ""
                       | _ => string_of x
                       end in
             match rest with
             | [] => sx
             | _ :: _ => sx ++ "," ++ join rest
             end
         end) items
  | VObj _ => "[object Object]"
  end.

(** The number [ToNumber] gives a convertible value. *)
Definition number_of (v : value) : num :=
  match v with
  | VUndefined => num_nan
  | VNull => num_of_Z 0
  | VBool true => num_of_Z 1
  | VBool false => num_of_Z 0
  | VNum n => n
  | VStr s => string_to_num s
  | VArr _ | VObj _ => string_to_num (string_of v)
  end.

(** [ToString], as a template literal and a property key apply it. *)
Definition to_string (v : value) : outcome string :=
  if convertible v then Returned (string_of v)
  else Thrown (TypeError cannot_convert).

(** [Number(v)] *)
Definition to_number (v : value) : outcome num :=
  if convertible v then Returned (number_of v)
  else Thrown (TypeError cannot_convert).

(** [typeof v === 'string'] and [Array.isArray(v)] *)
Definition is_string (v : value) : bool :=
  match v with VStr _ => true | _ => false end.

Definition is_array (v : value) : bool :=
  match v with VArr _ => true | _ => false end.

(** [v === 'lit'] for a string literal *)
Definition strict_eq_str (v : value) (lit : string) : bool :=
  match v with VStr s => String.eqb s lit | _ => false end.

(** [v.k] on a value that is neither [null] nor [undefined], for the keys the
    two files read ([jsonrpc], [id], [method], [params], [name], [input]):
    none of them is on [Object.prototype], [Array.prototype] or the wrapper
    prototypes, so the read is the own property or [undefined]. *)
Definition get (v : value) (k : string) : value :=
  match v with
  | VObj fields => match assoc k fields with Some x => x | None => VUndefined end
  | _ => VUndefined
  end.

(** [Object.keys(v)] of a plain object *)
Definition own_keys (v : value) : list string :=
  match v with VObj fields => map fst fields | _ => [] end.

End Values.

Arguments Returned {host A} a.
Arguments Thrown {host A} e.

Declare Scope outcome_scope.
Delimit Scope outcome_scope with outcome.
Notation "x <- e ;; k" := (bind e (fun x => k))
  (at level 61, e at next level, right associativity) : outcome_scope.

(** The property names every plain object inherits from [Object.prototype].
    All are functions but [__proto__], an accessor that yields the prototype
    object: each reads as a truthy value without a [run] property. *)
Definition object_prototype_keys : list string :=
  [ "constructor"; "__defineGetter__"; "__defineSetter__"; "hasOwnProperty";
    "__lookupGetter__"; "__lookupSetter__"; "isPrototypeOf";
    "propertyIsEnumerable"; "toString"; "valueOf"; "__proto__";
    "toLocaleString" ].

Definition mem_string (k : string) (l : list string) : bool :=
  existsb (String.eqb k) l.

(** The message V8 gives the [TypeError] raised by calling [undefined]. *)
Definition not_a_function (callee : string) : string :=
  callee ++ " is not a function".

(** The message V8 gives the [TypeError] raised by reading a property of
    [null] or [undefined]. *)
Definition cannot_read (v k : string) : string :=
  "Cannot read properties of " ++ v ++ " (reading '" ++ k ++ "')".

End Js.

Import Js.

(* ================================================================== *)
(** * The response envelope and the registry shape *)
(* ================================================================== *)

Module Rpc.
Section Rpc.
Context {host : JsHost}.

(** [JsonRpcSuccess | JsonRpcError].  [data] is [None] where the object
    literal has no [data] key. *)
Inductive response :=
| Success (id : value) (result : value)
| Failure (id : value) (code : Z) (message : value) (data : option value).

Definition response_id (r : response) : value :=
  match r with Success id _ => id | Failure id _ _ _ => id end.

(** The object a response is, as [JSON.stringify] receives it. *)
Definition response_to_value (r : response) : value :=
  match r with
  | Success id result =>
      VObj [("jsonrpc", VStr "2.0"); ("id", id); ("result", result)]
  | Failure id code message data =>
      VObj [("jsonrpc", VStr "2.0"); ("id", id);
            ("error", VObj ([("code", VNum (num_of_Z code)); ("message", message)]
                            ++ match data with
                               | Some d => [("data", d)]
                               | None => []
                               end))]
  end.

(** An entry of [tools] / [TOOLS].  [inputSchema] is [None] where the entry
    has none (it is optional in server.ts). *)
Record McpTool := {
  name : string;
  description : string;
  inputSchema : option value;
  run : value -> outcome value
}.

(** A registry is an object literal keyed by tool name, in source order. *)
Definition registry := list (string * McpTool).

(** [Object.values(tools)], [Object.keys(TOOLS)]: insertion order, as no key is
    an array index. *)
Definition object_values (tools : registry) : list McpTool := map snd tools.
Definition object_keys (tools : registry) : list string := map fst tools.

(** What [tools[key]] finds: an own entry, a member inherited from
    [Object.prototype], or nothing ([undefined]). *)
Inductive member :=
| OwnTool (t : McpTool)
| Inherited
| Absent.

Definition lookup (tools : registry) (key : string) : member :=
  match assoc key tools with
  | Some t => OwnTool t
  | None => if mem_string key object_prototype_keys then Inherited else Absent
  end.

(** [key in tools] *)
Definition has_property (tools : registry) (key : string) : bool :=
  match lookup tools key with Absent => false | _ => true end.

(** The [catch] clause both files share:
    [{ code: -32000, message: err?.message || 'Internal error', data: err?.stack }] *)
Definition internal_error (id : value) (err : thrown) : response :=
  Failure id (-32000) (js_or (thrown_message err) (VStr "Internal error"))
          (Some (thrown_stack err)).

End Rpc.
End Rpc.

Import Rpc.

(* ================================================================== *)
(** * server.ts *)
(* ================================================================== *)

Module Server.
Section Server.
Context {host : JsHost}.

(** ** Tool definitions *)

Definition echo : McpTool :=
  {| name := "echo";
     description := "Return the provided input. / 回显输入内容";
     inputSchema := None;
     run := fun input => Returned (VObj [("echo", input)]) |}.

(** [clock] is what [new Date().toISOString()] reads when the tool runs. *)
Definition now (clock : string) : McpTool :=
  {| name := "now";
     description := "Return current ISO timestamp. / 返回当前时间戳";
     inputSchema := None;
     run := fun _ => Returned (VObj [("now", VStr clock)]) |}.

(** [input.reduce((acc, v) => acc + Number(v || 0), 0)]: the callback runs
    on the elements from the left, and a conversion that throws ends the
    reduction. *)
Fixpoint reduce_sum (acc : num) (input : list value) : outcome num :=
  match input with
  | [] => Returned acc
  | v :: rest =>
      (n <- to_number (js_or v (VNum (num_of_Z 0))) ;;
       reduce_sum (num_add acc n) rest)%outcome
  end.

Definition sum : McpTool :=
  {| name := "sum";
     description := "Sum numbers in an array. / 对数组中的数字求和";
     inputSchema := None;
     run := fun input =>
       match input with
       | VArr items =>
           (total <- reduce_sum (num_of_Z 0) items ;;
            Returned (VObj [("total", VNum total)]))%outcome
       | _ => Thrown (Error "Input must be array of numbers")
       end |}.

Definition tools (clock : string) : registry :=
  [("echo", echo); ("now", now clock); ("sum", sum)].

(** ** JSON-RPC handler *)

(** [throw new Error(`Tool not found: ${name}`)]; the template converts
    [name] first. *)
Definition tool_not_found {A : Type} (name : value) : outcome A :=
  (s <- to_string name ;; Thrown (Error ("Tool not found: " ++ s)))%outcome.

(** The [try] block of [handleRpc], for a request that passed the version
    check.  [Thrown] is what the [catch] clause receives. *)
Definition dispatch (clock : string) (reqObj : value) : outcome response :=
  let id := js_coalesce (get reqObj "id") VNull in
  let method := get reqObj "method" in
  if strict_eq_str method "ping" then
    Returned (Success id (VObj [("pong", VBool true)]))
  else if strict_eq_str method "listTools" then
    Returned (Success id
      (VArr (map (fun t => VObj [("name", VStr (name t));
                                 ("description", VStr (description t))])
                 (object_values (tools clock)))))
  else if strict_eq_str method "callTool" then
    let params := js_or (get reqObj "params") (VObj []) in
    let name := get params "name" in
    let input := get params "input" in
    (* [!name || !tools[name]]: [tools[name]] converts [name] to a property
       key; an own entry and an inherited member are both truthy *)
    if negb (truthy name) then tool_not_found name
    else
      (key <- to_string name ;;
       if negb (has_property (tools clock) key) then tool_not_found name
       else
         match lookup (tools clock) key with
         | OwnTool t =>
             result <- run t input ;;
             Returned (Success id result)
         | Inherited => Thrown (TypeError (not_a_function "tools[name].run"))
         | Absent => Thrown (TypeError (cannot_read "undefined" "run"))
         end)%outcome
  else
    (m <- to_string method ;;
     Returned (Failure id (-32601) (VStr ("Method not found: " ++ m)) None))%outcome.

(** [handleRpc(reqObj)]: the promise it returns, fulfilled or rejected.  The
    first property read, [reqObj.jsonrpc], is outside the [try]. *)
Definition handleRpc (clock : string) (reqObj : value) : outcome response :=
  if nullish reqObj then
    Thrown (TypeError (cannot_read (string_of reqObj) "jsonrpc"))
  else if negb (strict_eq_str (get reqObj "jsonrpc") "2.0") then
    Returned (Failure (js_coalesce (get reqObj "id") VNull) (-32600)
                (VStr "Invalid JSON-RPC version") None)
  else
    match dispatch clock reqObj with
    | Returned resp => Returned resp
    | Thrown err => Returned (internal_error (js_coalesce (get reqObj "id") VNull) err)
    end.

(** ** In-memory session and event stream management *)

(** [res] names the Express response object of the connection. *)
Record ClientConn := {
  id : string;
  res : nat;
  createdAt : Z;
  lastEventId : num
}.

(** One [res.write] call of the SSE code. *)
Inductive chunk :=
| IdLine (seq : Z)          (** [id: ${seq}\n] *)
| EventLine (event : string) (** [event: ${event}\n] *)
| DataLine (data : value).   (** [data: ${JSON.stringify(data)}\n\n] *)

(** [clients] is the [Map], in insertion order; [wire] records every
    [res.write] so far, oldest first, with the response object written to. *)
Record server_state := {
  clients : list (string * ClientConn);
  globalEventSeq : Z;
  wire : list (nat * chunk)
}.

Definition init : server_state :=
  {| clients := []; globalEventSeq := 1; wire := [] |}.

(** [globalEventSeq++] on a JavaScript number that holds an integer: exact
    below 2^53, where [n + 1] rounds back to [n]. *)
Definition js_incr (n : Z) : Z := if (n <? 2 ^ 53)%Z then (n + 1)%Z else n.

(** [Map.prototype.set]: an existing key keeps its place. *)
Fixpoint map_set {A : Type} (k : string) (a : A) (m : list (string * A))
  : list (string * A) :=
  match m with
  | [] => [(k, a)]
  | (k', a') :: rest =>
      if String.eqb k k' then (k, a) :: rest else (k', a') :: map_set k a rest
  end.

(** [Map.prototype.delete] *)
Definition map_delete {A : Type} (k : string) (m : list (string * A))
  : list (string * A) :=
  filter (fun e => negb (String.eqb k (fst e))) m.

Definition write (r : nat) (c : chunk) (st : server_state) : server_state :=
  {| clients := clients st;
     globalEventSeq := globalEventSeq st;
     wire := wire st ++ [(r, c)] |}.

(** [c.lastEventId = n] for the connection object stored under [k]. *)
Definition set_lastEventId (k : string) (n : num) (st : server_state)
  : server_state :=
  {| clients := map (fun e => if String.eqb k (fst e)
                              then (fst e, {| id := id (snd e); res := res (snd e);
                                              createdAt := createdAt (snd e);
                                              lastEventId := n |})
                              else e) (clients st);
     globalEventSeq := globalEventSeq st;
     wire := wire st |}.

Definition write_frame (k : string) (c : ClientConn) (event : string)
  (data : value) (st : server_state) : server_state :=
  let st1 := write (res c) (IdLine (globalEventSeq st)) st in
  let st2 := write (res c) (EventLine event) st1 in
  let st3 := write (res c) (DataLine data) st2 in
  set_lastEventId k (num_of_Z (globalEventSeq st3)) st3.

(** [broadcast(event, data)]: the loop over [clients.values()], then the
    increment. *)
Definition broadcast (event : string) (data : value) (st : server_state)
  : server_state :=
  let st' := fold_left (fun s e => write_frame (fst e) (snd e) event data s)
                       (clients st) st in
  {| clients := clients st';
     globalEventSeq := js_incr (globalEventSeq st');
     wire := wire st' |}.

(** ** Express handlers *)

(** [lastEventIdHeader ? Number(lastEventIdHeader) : 0] *)
Definition header_number (lastEventIdHeader : option string) : num :=
  match lastEventIdHeader with
  | Some h => if String.eqb h "" then num_of_Z 0 else string_to_num h
  | None => num_of_Z 0
  end.

(** [GET /mcp/sse] up to [clients.set]: the connection object is built from
    the header and registered. *)
Definition register (clientId : string) (socket : nat)
  (lastEventIdHeader : option string) (created : Z) (st : server_state)
  : server_state :=
  let conn := {| id := clientId; res := socket; createdAt := created;
                 lastEventId := header_number lastEventIdHeader |} in
  {| clients := map_set clientId conn (clients st);
     globalEventSeq := globalEventSeq st;
     wire := wire st |}.

(** The welcome event of [GET /mcp/sse]; [serverTime] is
    [new Date().toISOString()]. *)
Definition welcome (clientId : string) (socket : nat) (serverTime : string)
  (st : server_state) : server_state :=
  let st1 := write socket (IdLine (globalEventSeq st)) st in
  let st2 := write socket (EventLine "welcome") st1 in
  let st3 := write socket
               (DataLine (VObj [("clientId", VStr clientId);
                                ("serverTime", VStr serverTime)])) st2 in
  let st4 := set_lastEventId clientId (num_of_Z (globalEventSeq st3)) st3 in
  {| clients := clients st4;
     globalEventSeq := js_incr (globalEventSeq st4);
     wire := wire st4 |}.

Definition sse_accept (clientId : string) (socket : nat)
  (lastEventIdHeader : option string) (created : Z) (serverTime : string)
  (st : server_state) : server_state :=
  welcome clientId socket serverTime
          (register clientId socket lastEventIdHeader created st).

(** [req.on('close', ...)] *)
Definition sse_close (clientId : string) (st : server_state) : server_state :=
  {| clients := map_delete clientId (clients st);
     globalEventSeq := globalEventSeq st;
     wire := wire st |}.

(** The [for] loop of [POST /mcp/command].  [clock i] is the time the [i]-th
    entry is dispatched at.  The tools of this file never wait for I/O, so
    every [await] resumes in the same turn of the event loop and no other
    handler runs in between.  A rejected [handleRpc] leaves the loop with the
    state reached so far. *)
Fixpoint command_loop (clock : nat -> string) (i : nat) (requests : list value)
  (responses : list response) (st : server_state)
  : server_state * outcome (list response) :=
  match requests with
  | [] => (st, Returned responses)
  | r :: rest =>
      match handleRpc (clock i) r with
      | Thrown e => (st, Thrown e)
      | Returned resp =>
          command_loop clock (S i) rest (responses ++ [resp])
                       (broadcast "rpc" (response_to_value resp) st)
      end
  end.

(** [POST /mcp/command]: the new state and, when the handler completes, the
    value handed to [res.json]. *)
Definition post_command (clock : nat -> string) (body : value)
  (st : server_state) : server_state * outcome value :=
  let requests := match body with VArr items => items | _ => [body] end in
  match command_loop clock 0 requests [] st with
  | (st', Thrown e) => (st', Thrown e)
  | (st', Returned responses) =>
      (st', Returned (if is_array body
                      then VArr (map response_to_value responses)
                      else match responses with
                           | r :: _ => response_to_value r
                           | [] => VUndefined
                           end))
  end.

(** The [setInterval] callback; [ts] is [Date.now()]. *)
Definition tick (ts : Z) (st : server_state) : server_state :=
  broadcast "tick" (VObj [("ts", VNum (num_of_Z ts))]) st.

(** ** Runs of the server: the handlers the event loop calls, in order *)

Inductive action :=
| Accept (clientId : string) (socket : nat) (lastEventIdHeader : option string)
         (created : Z) (serverTime : string)
| Close (clientId : string)
| Tick (ts : Z)
| Command (clock : nat -> string) (body : value).

Definition step (st : server_state) (a : action) : server_state :=
  match a with
  | Accept clientId socket h created serverTime =>
      sse_accept clientId socket h created serverTime st
  | Close clientId => sse_close clientId st
  | Tick ts => tick ts st
  | Command clock body => fst (post_command clock body st)
  end.

Definition run (acts : list action) (st : server_state) : server_state :=
  fold_left step acts st.

(** The sequence ids on the wire, oldest first. *)
Definition ids_of (w : list (nat * chunk)) : list Z :=
  flat_map (fun e => match snd e with IdLine i => [i] | _ => [] end) w.

(** The SSE frame one recipient gets. *)
Definition frame (r : nat) (seq : Z) (event : string) (data : value)
  : list (nat * chunk) :=
  [(r, IdLine seq); (r, EventLine event); (r, DataLine data)].

End Server.
End Server.

(* ================================================================== *)
(** * tavily.ts *)
(* ================================================================== *)

Module Tavily.

(** ** Strings of the stdin loop

    [process.stdin.setEncoding('utf8')] hands the handler decoded text; a
    [string] here is that text in UTF-8.  The byte 10 occurs in UTF-8 only as
    the line feed, so cutting at it is cutting at ['\n']. *)

Definition newline : ascii := ascii_of_nat 10.

(** [s.indexOf('\n')], [None] for [-1] *)
Fixpoint index_of_newline (s : string) : option nat :=
  match s with
  | EmptyString => None
  | String c rest =>
      if Ascii.eqb c newline then Some 0
      else match index_of_newline rest with
           | Some i => Some (S i)
           | None => None
           end
  end.

(** [s.slice(0, idx)] and [s.slice(from)] for indices within the string *)
Definition slice_to (idx : nat) (s : string) : string := substring 0 idx s.
Definition slice_from (from : nat) (s : string) : string :=
  substring from (String.length s - from) s.

Definition byte_is (n : nat) (c : ascii) : bool := Nat.eqb (nat_of_ascii c) n.

(** The white space and line terminators [String.prototype.trim] removes,
    by the length of their UTF-8 encoding: U+0009..U+000D and U+0020; U+00A0;
    U+1680, U+2000..U+200A, U+2028, U+2029, U+202F, U+205F, U+3000, U+FEFF. *)
Definition ws1 (a : ascii) : bool :=
  let n := nat_of_ascii a in
  (Nat.leb 9 n && Nat.leb n 13) || Nat.eqb n 32.

Definition ws2 (a b : ascii) : bool := byte_is 194 a && byte_is 160 b.

Definition ws3 (a b c : ascii) : bool :=
  let n := nat_of_ascii c in
  (byte_is 225 a && byte_is 154 b && byte_is 128 c)
  || (byte_is 226 a && byte_is 128 b
      && ((Nat.leb 128 n && Nat.leb n 138) || Nat.eqb n 168 || Nat.eqb n 169
          || Nat.eqb n 175))
  || (byte_is 226 a && byte_is 129 b && byte_is 159 c)
  || (byte_is 227 a && byte_is 128 b && byte_is 128 c)
  || (byte_is 239 a && byte_is 187 b && byte_is 191 c).

(** Drop leading white space, the characters being recognised by [w1], [w2]
    and [w3] on their first one, two or three bytes. *)
Fixpoint strip (w1 : ascii -> bool) (w2 : ascii -> ascii -> bool)
  (w3 : ascii -> ascii -> ascii -> bool) (s : string) : string :=
  match s with
  | EmptyString => EmptyString
  | String a r1 =>
      if w1 a then strip w1 w2 w3 r1
      else match r1 with
           | String b r2 =>
               if w2 a b then strip w1 w2 w3 r2
               else match r2 with
                    | String c r3 => if w3 a b c then strip w1 w2 w3 r3 else s
                    | EmptyString => s
                    end
           | EmptyString => s
           end
  end.

Definition string_rev (s : string) : string :=
  string_of_list_ascii (rev (list_ascii_of_string s)).

(** [s.trim()]: leading white space, then trailing white space, which is
    leading white space of the reversed bytes. *)
Definition trim (s : string) : string :=
  string_rev (strip ws1 (fun b a => ws2 a b) (fun c b a => ws3 a b c)
                    (string_rev (strip ws1 ws2 ws3 s))).

Section Tavily.
Context {host : JsHost}.

(** [config.tavily.apiKey], from [../config]. *)
Variable apiKey : value.

(** The rest of [tavily_search.run] once the key is there: the request body,
    the [fetch] call and the shaping of the reply, seen as the promise they
    settle to for a given [input]. *)
Variable search : value -> outcome value.

(** [JSON.parse]: the value, or the [SyntaxError] it throws. *)
Variable JSON_parse : string -> outcome value.

(** ** Tool definitions *)

Definition tavily_search_schema : value :=
  VObj [("type", VStr "object");
        ("properties",
         VObj [("query", VObj [("type", VStr "string");
                               ("description", VStr "Search query / 搜索关键词")]);
               ("max_results", VObj [("type", VStr "number");
                                     ("description", VStr "Max results (1-10)");
                                     ("minimum", VNum (num_of_Z 1));
                                     ("maximum", VNum (num_of_Z 10))]);
               ("depth", VObj [("type", VStr "string");
                               ("enum", VArr [VStr "basic"; VStr "advanced"]);
                               ("description", VStr "Search depth")])]);
        ("required", VArr [VStr "query"])].

Definition tavily_search : McpTool :=
  {| name := "tavily_search";
     description := "Perform a web search using Tavily API. 输入自然语言查询，返回最新互联网信息摘要。";
     inputSchema := Some tavily_search_schema;
     run := fun input =>
       if negb (truthy apiKey) then
         Thrown (Error "Tavily API key missing. 请在环境变量中设置 TAVILY_API_KEY")
       else search input |}.

Definition TOOLS : registry := [("tavily_search", tavily_search)].

(** [t.inputSchema] as a property value *)
Definition schema_value (t : McpTool) : value :=
  match inputSchema t with Some s => s | None => VUndefined end.

(** ** JSON-RPC handler *)

(** [throw new Error(`Tool not found: ${name}`)]; the template converts
    [name] first. *)
Definition tool_not_found {A : Type} (name : value) : outcome A :=
  (s <- to_string name ;; Thrown (Error ("Tool not found: " ++ s)))%outcome.

(** The [try] block of [handleRpc]. *)
Definition dispatch (req : value) : outcome response :=
  let id := js_coalesce (get req "id") VNull in
  let method := get req "method" in
  if strict_eq_str method "ping" then
    Returned (Success id (VObj [("pong", VBool true)]))
  else if strict_eq_str method "listTools" then
    Returned (Success id
      (VArr (map (fun t => VObj [("name", VStr (name t));
                                 ("description", VStr (description t));
                                 ("inputSchema", schema_value t)])
                 (object_values TOOLS))))
  else if strict_eq_str method "callTool" then
    let params := js_or (get req "params") (VObj []) in
    let name := get params "name" in
    let input := get params "input" in
    match name with
    | VStr key =>
        (* [name in TOOLS], then [TOOLS[name]] *)
        if negb (has_property TOOLS key) then tool_not_found name
        else
          match lookup TOOLS key with
          | OwnTool tool =>
              (result <- run tool (js_or input (VObj [])) ;;
               Returned (Success id result))%outcome
          | Inherited => Thrown (TypeError (not_a_function "tool.run"))
          | Absent => Thrown (TypeError (cannot_read "undefined" "run"))
          end
    | _ => tool_not_found name
    end
  else
    (m <- to_string method ;;
     Returned (Failure id (-32601) (VStr ("Method not found: " ++ m)) None))%outcome.

Definition handleRpc (req : value) : outcome response :=
  if nullish req then
    Thrown (TypeError (cannot_read (string_of req) "jsonrpc"))
  else if negb (strict_eq_str (get req "jsonrpc") "2.0") then
    Returned (Failure (js_coalesce (get req "id") VNull) (-32600)
                (VStr "Invalid JSON-RPC version") None)
  else
    match dispatch req with
    | Returned resp => Returned resp
    | Thrown e => Returned (internal_error (js_coalesce (get req "id") VNull) e)
    end.

(** ** stdio loop *)

(** [stdout] holds one entry per [process.stdout.write(JSON.stringify(x) + '\n')]
    call, oldest first: the object [x] of that line.  [pending] holds the
    promises of the [handleRpc] calls whose [then] callback has not run yet. *)
Record stdio_state := {
  buffer : string;
  stdout : list value;
  pending : list (outcome response)
}.

Definition parse_error (e : thrown) : response :=
  Failure VNull (-32700) (VStr "Parse error") (Some (thrown_message e)).

(** The body of the [while] loop after the line is cut: skip an empty line,
    else parse, then dispatch or report. *)
Definition on_line (line : string) (st : stdio_state) : stdio_state :=
  if String.eqb line "" then st
  else match JSON_parse line with
       | Returned req =>
           {| buffer := buffer st; stdout := stdout st;
              pending := pending st ++ [handleRpc req] |}
       | Thrown e =>
           {| buffer := buffer st;
              stdout := stdout st ++ [response_to_value (parse_error e)];
              pending := pending st |}
       end.

Definition set_buffer (b : string) (st : stdio_state) : stdio_state :=
  {| buffer := b; stdout := stdout st; pending := pending st |}.

Lemma on_line_buffer line st : buffer (on_line line st) = buffer st.
Proof.
  unfold on_line. destruct (String.eqb line ""); [reflexivity|].
  destruct (JSON_parse line); reflexivity.
Qed.

End Tavily.

Lemma substring_length (s : string) :
  forall n m, n + m <= String.length s -> String.length (substring n m s) = m.
Proof.
  induction s as [|c s IH]; intros n m H; simpl in *.
  - destruct n, m; simpl; lia.
  - destruct n as [|n].
    + destruct m as [|m]; simpl; [reflexivity|]. rewrite IH; lia.
    + apply IH. lia.
Qed.

Lemma index_of_newline_lt (s : string) :
  forall idx, index_of_newline s = Some idx -> idx < String.length s.
Proof.
  induction s as [|c s IH]; intros idx H; simpl in *; [discriminate|].
  destruct (Ascii.eqb c newline).
  - inversion H; lia.
  - destruct (index_of_newline s) as [i|]; [|discriminate].
    inversion H; subst. specialize (IH i eq_refl). lia.
Qed.

Lemma slice_from_shorter (s : string) (idx : nat) :
  index_of_newline s = Some idx ->
  String.length (slice_from (S idx) s) < String.length s.
Proof.
  intros H. apply index_of_newline_lt in H.
  unfold slice_from. rewrite substring_length; lia.
Qed.

Definition inspect {A : Type} (a : A) : { b : A | a = b } := exist _ a eq_refl.

Section Stdio.
Context {host : JsHost}.
Variable apiKey : value.
Variable search : value -> outcome value.
Variable JSON_parse : string -> outcome value.

(** The [while ((idx = buffer.indexOf('\n')) >= 0)] loop of the [data]
    handler, on the state whose [buffer] already holds the new chunk. *)
Equations? stdin_loop (st : stdio_state) : stdio_state
  by wf (String.length (buffer st)) lt :=
  stdin_loop st with inspect (index_of_newline (buffer st)) => {
    | exist _ (Some idx) Hidx =>
        let line := trim (slice_to idx (buffer st)) in
        stdin_loop (on_line apiKey search JSON_parse line
                      (set_buffer (slice_from (S idx) (buffer st)) st))
    | exist _ None _ => st }.
Proof.
  rewrite on_line_buffer. simpl. apply slice_from_shorter. assumption.
Qed.

(** [process.stdin.on('data', chunk => ...)] *)
Definition on_data (chunk : string) (st : stdio_state) : stdio_state :=
  stdin_loop (set_buffer (buffer st ++ chunk) st).

(** The [then] callback of the [k]-th pending promise runs: a fulfilled one
    writes its response line; a rejected one has no handler and writes
    nothing. *)
Definition settle (k : nat) (st : stdio_state) : stdio_state :=
  match nth_error (pending st) k with
  | None => st
  | Some p =>
      {| buffer := buffer st;
         stdout := match p with
                   | Returned resp => stdout st ++ [response_to_value resp]
                   | Thrown _ => stdout st
                   end;
         pending := firstn k (pending st) ++ skipn (S k) (pending st) |}
  end.

(** The line written when the module is loaded. *)
Definition ready_line : value :=
  response_to_value
    (Success VNull
       (VObj [("ready", VBool true);
              ("tools", VArr (map VStr (object_keys (TOOLS apiKey search))))])).

(** The transport once the module is loaded: the handler is installed, the
    readiness line is written, no chunk has been delivered. *)
Definition init : stdio_state :=
  {| buffer := ""; stdout := [ready_line]; pending := [] |}.

Inductive event :=
| Data (chunk : string)
| Settle (k : nat).

Definition step (st : stdio_state) (e : event) : stdio_state :=
  match e with
  | Data chunk => on_data chunk st
  | Settle k => settle k st
  end.

Definition run (events : list event) (st : stdio_state) : stdio_state :=
  fold_left step events st.

End Stdio.
End Tavily.

(* ================================================================== *)
(** * Vocabulary of the statements *)
(* ================================================================== *)

Section Requests.
Context {host : JsHost}.

(** The [id] every response of a request carries: [reqObj.id ?? null]. *)
Definition reply_id (req : value) : value := js_coalesce (get req "id") VNull.

Definition version_ok (req : value) : bool :=
  strict_eq_str (get req "jsonrpc") "2.0".

(** The parameters of a [callTool] request:
    [const { name, input } = req.params || {}]. *)
Definition call_params (req : value) : value := js_or (get req "params") (VObj []).

Definition is_call (req : value) : bool :=
  version_ok req && strict_eq_str (get req "method") "callTool".

Definition is_listTools (req : value) : bool :=
  version_ok req && strict_eq_str (get req "method") "listTools".

(** What a [listTools] entry shows of a tool: its name, its description and
    its [inputSchema] - the entry has the key, with the tool's schema, when
    the tool has one, and has no such key when the tool has none - under no
    other key. *)
Definition public_entry (t : McpTool) (e : value) : Prop :=
  get e "name" = VStr (name t)
  /\ get e "description" = VStr (description t)
  /\ match inputSchema t with
     | Some schema =>
         In "inputSchema" (own_keys e) /\ get e "inputSchema" = schema
     | None => ~ In "inputSchema" (own_keys e)
     end
  /\ incl (own_keys e) ["name"; "description"; "inputSchema"].

End Requests.

Section Connections.
Context {host : JsHost}.

Import Server.

(** The response objects of the registered connections, in [Map] order. *)
Definition sockets (st : server_state) : list nat :=
  map (fun e => res (snd e)) (clients st).

(** The sequence ids written to one response object, oldest first. *)
Definition ids_seen_by (r : nat) (w : list (nat * chunk)) : list Z :=
  ids_of (filter (fun e => Nat.eqb (fst e) r) w).

(** What one response object has been sent. *)
Definition received (r : nat) (st : server_state) : list chunk :=
  map snd (filter (fun e => Nat.eqb (fst e) r) (wire st)).

(** What holds of the counter and the wire in every state a run reaches while
    the counter is below 2^53. *)
Record ordered (st : server_state) : Prop := {
  seq_pos : (1 <= globalEventSeq st)%Z;
  ids_sorted : StronglySorted Z.le (ids_of (wire st));
  ids_below : Forall (fun i => (1 <= i < globalEventSeq st)%Z) (ids_of (wire st));
  sockets_distinct : NoDup (sockets st);
  seen_sorted : forall r, StronglySorted Z.lt (ids_seen_by r (wire st))
}.

(** A handler that only broadcasts: the events it sends, in order. *)
Definition emits (l : list (string * value)) (st : server_state) : server_state :=
  fold_left (fun s d => broadcast (fst d) (snd d) s) l st.

(** The response objects a run accepts connections on. *)
Definition accepted (acts : list action) : list nat :=
  flat_map (fun a => match a with
                     | Accept _ socket _ _ _ => [socket]
                     | _ => []
                     end) acts.

(** Two actions that are the same but for the [Last-Event-ID] header a client
    sends when it connects. *)
Inductive same_but_header : action -> action -> Prop :=
| sbh_accept clientId socket h h' created serverTime :
    same_but_header (Accept clientId socket h created serverTime)
                    (Accept clientId socket h' created serverTime)
| sbh_same a : same_but_header a a.

End Connections.

Section MoreRequests.
Context {host : JsHost}.

(** The three method names of the [switch]. *)
Definition known_method (method : value) : bool :=
  strict_eq_str method "ping" || strict_eq_str method "listTools"
  || strict_eq_str method "callTool".

(** How a response relates to its request: a Success answers a known method
    of a request with the right version; a Failure has one of three codes,
    -32600 for the version, -32601 for the method, both without [data], and
    -32000, with [data], for what the [try] block throws. *)
Definition classified (req : value) (resp : response) : Prop :=
  match resp with
  | Success i _ =>
      i = js_coalesce (get req "id") VNull
      /\ version_ok req = true
      /\ known_method (get req "method") = true
  | Failure i code _ data =>
      i = js_coalesce (get req "id") VNull
      /\ ((code = (-32600)%Z /\ version_ok req = false /\ data = None)
          \/ (code = (-32601)%Z /\ version_ok req = true
              /\ known_method (get req "method") = false /\ data = None)
          \/ (code = (-32000)%Z /\ version_ok req = true /\ data <> None))
  end.

End MoreRequests.

Section MoreConnections.
Context {host : JsHost}.

Import Server.

(** The keys of the [clients] map, in insertion order. *)
Definition keys (st : server_state) : list string := map fst (clients st).

(** A connection object after [c.lastEventId = n]. *)
Definition marked (n : num) (c : ClientConn) : ClientConn :=
  {| id := id c; res := res c; createdAt := createdAt c; lastEventId := n |}.

(** [c.lastEventId = n] on the entries stored under [k], as
    [set_lastEventId] rewrites the map. *)
Definition mark_key (k : string) (n : num) (e : string * ClientConn)
  : string * ClientConn :=
  if String.eqb k (fst e) then (fst e, marked n (snd e)) else e.

(** The [requests] array of [POST /mcp/command]. *)
Definition requests_of (body : value) : list value :=
  match body with VArr items => items | _ => [body] end.

(** The entries the loop of [POST /mcp/command] gets through: those before
    the first that is [null] or [undefined]. *)
Fixpoint served (requests : list value) : nat :=
  match requests with
  | [] => 0
  | r :: rest => if nullish r then 0 else S (served rest)
  end.

(** The events a handler emits: one per accept, per tick and per entry
    served. *)
Definition events_of (a : action) : nat :=
  match a with
  | Accept _ _ _ _ _ => 1
  | Close _ => 0
  | Tick _ => 1
  | Command _ body => served (requests_of body)
  end.

Definition events (acts : list action) : nat :=
  fold_right (fun a n => events_of a + n) 0 acts.

(** The chunks one listener is sent for a series of responses broadcast
    as [rpc] events, the first stamped [seq]. *)
Fixpoint rpc_frames (seq : Z) (resps : list response) : list chunk :=
  match resps with
  | [] => []
  | resp :: rest =>
      [IdLine seq; EventLine "rpc"; DataLine (response_to_value resp)]
      ++ rpc_frames (js_incr seq) rest
  end.

(** The last element of a list of ids. *)
Definition last_id (l : list Z) : option Z :=
  match rev l with [] => None | i :: _ => Some i end.

(** What every run keeps of the registry: keys and response objects are
    distinct, a connection is stored under its own id, and its [lastEventId]
    is the id of the last frame written to it. *)
Record registered (st : server_state) : Prop := {
  keys_distinct : NoDup (keys st);
  res_distinct : NoDup (sockets st);
  keyed_by_id : Forall (fun e => id (snd e) = fst e) (clients st);
  marker_is_last :
    Forall (fun e => exists i,
                last_id (ids_seen_by (res (snd e)) (wire st)) = Some i
                /\ lastEventId (snd e) = num_of_Z i) (clients st)
}.

End MoreConnections.

Section Lines.

Import Tavily.

(** The complete lines of a buffer, without their line feeds, and what
    follows the last line feed. *)
Fixpoint lines_and_rest (s : string) : list string * string :=
  match s with
  | EmptyString => ([], EmptyString)
  | String c r =>
      let (ls, rest) := lines_and_rest r in
      if Ascii.eqb c newline then (EmptyString :: ls, rest)
      else match ls with
           | [] => ([], String c rest)
           | l :: ls' => (String c l :: ls', rest)
           end
  end.

(** The lines the loop does not skip. *)
Definition nonblank (l : string) : bool := negb (String.eqb (trim l) "").

End Lines.

Section LineLoop.
Context {host : JsHost}.

Import Tavily.

(** The body of the loop on each line, trimmed, in order. *)
Definition each_line (apiKey : value) (search : value -> outcome value)
  (JSON_parse : string -> outcome value) (ls : list string) (st : stdio_state)
  : stdio_state :=
  fold_left (fun s l => on_line apiKey search JSON_parse (trim l) s) ls st.

End LineLoop.

Section Pending.
Context {host : JsHost}.

(** The promises among the pending ones that are fulfilled. *)
Definition fulfilled (ps : list (outcome response)) : nat :=
  List.length (filter (fun p => match p with Returned _ => true | Thrown _ => false end) ps).

End Pending.

(* ================================================================== *)
(** * A host to run the embedding on *)
(* ================================================================== *)

(** JavaScript numbers cut down to the integers and [NaN] ([None]), enough to
    evaluate the handlers on sample requests.  No theorem depends on it: each
    is proved for every host and only instantiated here. *)
Module SampleHost.

Definition add (a b : option Z) : option Z :=
  match a, b with
  | Some x, Some y => Some (x + y)%Z
  | _, _ => None
  end.

Definition is_falsy (a : option Z) : bool :=
  match a with
  | Some x => Z.eqb x 0
  | None => true
  end.

Definition print (a : option Z) : string :=
  match a with
  | Some x => NilZero.string_of_int (Z.to_int x)
  | None => "NaN"
  end.

Definition read (s : string) : option Z :=
  if String.eqb s "" then Some 0%Z
  else match NilZero.int_of_string s with
       | Some i => Some (Z.of_int i)
       | None => None
       end.

#[export] Instance host : JsHost :=
  {| num := option Z;
     num_of_Z := Some;
     num_add := add;
     num_is_falsy := is_falsy;
     num_to_string := print;
     string_to_num := read;
     num_nan := None;
     error_stack := fun ctor msg => ctor ++ ": " ++ msg |}.

Definition int (z : Z) : value := VNum (Some z).

(** A request object with the four fields of [JsonRpcRequest]. *)
Definition request (id : value) (method : string) (params : value) : value :=
  VObj [("jsonrpc", VStr "2.0"); ("id", id); ("method", VStr method);
        ("params", params)].

Definition call (id : value) (tool : value) (input : value) : value :=
  request id "callTool" (VObj [("name", tool); ("input", input)]).

Definition clock : string := "2025-01-01T00:00:00.000Z".

(** A search tool that is never reached: the key is missing. *)
Definition no_key : value := VUndefined.
Definition no_search : value -> outcome value := fun _ => Returned VNull.

(** A parser that knows one line, the empty array, and rejects the rest. *)
Definition parse (line : string) : outcome value :=
  if String.eqb line "[]"
  then Returned (VArr [])
  else Thrown {| thrown_message := VStr "Unexpected token o in JSON at position 1";
                 thrown_stack := VStr "SyntaxError" |}.

(** Two clients connect, one with a resume header; a tick, a batch of two
    commands, a disconnect, a tick. *)
Definition batch : list value :=
  [request (VStr "a") "ping" VUndefined;
   request (VStr "b") "unknown" VUndefined].

Definition session (header : option string) : list Server.action :=
  [Server.Accept "c1" 0 None 1000%Z clock;
   Server.Accept "c2" 1 header 1001%Z clock;
   Server.Tick 1002%Z;
   Server.Command (fun _ => clock) (VArr batch);
   Server.Close "c1";
   Server.Tick 1003%Z].

(** Two clients connected, then what happens after the first leaves. *)
Definition two_clients : Server.server_state :=
  Server.run [Server.Accept "c1" 0 None 1000%Z clock;
              Server.Accept "c2" 1 None 1001%Z clock] Server.init.

Definition first_client : Server.ClientConn :=
  {| Server.id := "c1"; Server.res := 0; Server.createdAt := 1000%Z;
     Server.lastEventId := Some 1%Z |}.

Definition afterwards : list Server.action :=
  [Server.Tick 1002%Z;
   Server.Command (fun _ => clock) (VArr batch);
   Server.Accept "c3" 2 None 1003%Z clock;
   Server.Tick 1004%Z].

(** The transport with half a line in its buffer. *)
Definition half_line : Tavily.stdio_state :=
  {| Tavily.buffer := "not-";
     Tavily.stdout := [];
     Tavily.pending := [] |}.

End SampleHost.

(* ================================================================== *)
(** * The dispatcher *)
(* ================================================================== *)

Section Dispatcher.
Context {host : JsHost}.
Variable clock : string.
Variable apiKey : value.
Variable search : value -> outcome value.

Lemma version_ok_not_nullish req : version_ok req = true -> nullish req = false.
Proof. destruct req; simpl; intros H; try reflexivity; discriminate H. Qed.

Lemma server_handleRpc_unfold req :
  nullish req = false ->
  Server.handleRpc clock req =
  if version_ok req then
    match Server.dispatch clock req with
    | Returned resp => Returned resp
    | Thrown e => Returned (internal_error (reply_id req) e)
    end
  else Returned (Failure (reply_id req) (-32600)
                   (VStr "Invalid JSON-RPC version") None).
Proof.
  intros H. unfold Server.handleRpc, version_ok, reply_id. rewrite H.
  destruct (strict_eq_str (get req "jsonrpc") "2.0"); reflexivity.
Qed.

Lemma tavily_handleRpc_unfold req :
  nullish req = false ->
  Tavily.handleRpc apiKey search req =
  if version_ok req then
    match Tavily.dispatch apiKey search req with
    | Returned resp => Returned resp
    | Thrown e => Returned (internal_error (reply_id req) e)
    end
  else Returned (Failure (reply_id req) (-32600)
                   (VStr "Invalid JSON-RPC version") None).
Proof.
  intros H. unfold Tavily.handleRpc, version_ok, reply_id. rewrite H.
  destruct (strict_eq_str (get req "jsonrpc") "2.0"); reflexivity.
Qed.

Ltac case_dispatch :=
  repeat (cbv beta iota;
          match goal with
          | |- context [if ?b then _ else _] => destruct b
          | |- context [match lookup ?r ?k with _ => _ end] => destruct (lookup r k)
          | |- context [match run ?t ?i with _ => _ end] => destruct (run t i)
          | |- context [match get ?v ?k with _ => _ end] => destruct (get v k)
          end).

(** A response the [try] block returns carries the request's id. *)
Lemma server_dispatch_id req resp :
  Server.dispatch clock req = Returned resp -> response_id resp = reply_id req.
Proof.
  unfold Server.dispatch, Server.tool_not_found, bind, to_string, reply_id.
  case_dispatch; cbv beta iota; intros H; inversion H; reflexivity.
Qed.

Lemma tavily_dispatch_id req resp :
  Tavily.dispatch apiKey search req = Returned resp ->
  response_id resp = reply_id req.
Proof.
  unfold Tavily.dispatch, Tavily.tool_not_found, bind, to_string, reply_id.
  set (id := js_coalesce (get req "id") VNull).
  destruct (get (js_or (get req "params") (VObj [])) "name");
    case_dispatch; cbv beta iota; intros H; inversion H; reflexivity.
Qed.

Lemma server_handleRpc_returns req :
  nullish req = false ->
  exists resp, Server.handleRpc clock req = Returned resp
               /\ response_id resp = reply_id req.
Proof.
  intros H. rewrite (server_handleRpc_unfold req H).
  destruct (version_ok req).
  - destruct (Server.dispatch clock req) as [resp|e] eqn:D.
    + exists resp. split; [reflexivity | now apply server_dispatch_id].
    + eexists. split; reflexivity.
  - eexists. split; reflexivity.
Qed.

Lemma tavily_handleRpc_returns req :
  nullish req = false ->
  exists resp, Tavily.handleRpc apiKey search req = Returned resp
               /\ response_id resp = reply_id req.
Proof.
  intros H. rewrite (tavily_handleRpc_unfold req H).
  destruct (version_ok req).
  - destruct (Tavily.dispatch apiKey search req) as [resp|e] eqn:D.
    + exists resp. split; [reflexivity | now apply tavily_dispatch_id].
    + eexists. split; reflexivity.
  - eexists. split; reflexivity.
Qed.

(** A request that is [null] or [undefined] is no request object: reading its
    [jsonrpc] throws before the [try], and the promise is rejected. *)
Lemma handleRpc_rejects_nullish req :
  nullish req = true ->
  (exists e, Server.handleRpc clock req = Thrown e)
  /\ (exists e, Tavily.handleRpc apiKey search req = Thrown e).
Proof.
  intros H. unfold Server.handleRpc, Tavily.handleRpc. rewrite H.
  split; eexists; reflexivity.
Qed.

Lemma own_tool_has_property (tools : registry) key t :
  lookup tools key = OwnTool t -> has_property tools key = true.
Proof. unfold has_property. intros ->. reflexivity. Qed.

Lemma server_own_tool_truthy key t :
  lookup (Server.tools clock) key = OwnTool t -> truthy (VStr key) = true.
Proof.
  intros H. simpl. destruct (String.eqb key "") eqn:E; [|reflexivity].
  apply String.eqb_eq in E. subst key. discriminate H.
Qed.

(** [callTool] on a registered name runs the tool and wraps what it settles
    to. *)
Lemma server_callTool_own req key t :
  is_call req = true ->
  get (call_params req) "name" = VStr key ->
  lookup (Server.tools clock) key = OwnTool t ->
  Server.handleRpc clock req =
  match run t (get (call_params req) "input") with
  | Returned result => Returned (Success (reply_id req) result)
  | Thrown e => Returned (internal_error (reply_id req) e)
  end.
Proof.
  unfold is_call. intros Hc Hn Hl. apply andb_true_iff in Hc as [Hv Hm].
  rewrite (server_handleRpc_unfold req (version_ok_not_nullish req Hv)), Hv.
  unfold Server.dispatch. fold (call_params req). fold (reply_id req).
  destruct (get req "method") as [| | | |m| |] eqn:Em; try discriminate Hm.
  simpl in Hm. apply String.eqb_eq in Hm. subst m. simpl strict_eq_str.
  cbv iota. rewrite Hn.
  rewrite (server_own_tool_truthy key t Hl).
  change (to_string (VStr key)) with (Returned key).
  cbn [negb bind].
  rewrite (own_tool_has_property _ key t Hl), Hl. cbn [negb bind].
  destruct (run t (get (call_params req) "input")); reflexivity.
Qed.

Lemma tavily_callTool_own req key t :
  is_call req = true ->
  get (call_params req) "name" = VStr key ->
  lookup (Tavily.TOOLS apiKey search) key = OwnTool t ->
  Tavily.handleRpc apiKey search req =
  match run t (js_or (get (call_params req) "input") (VObj [])) with
  | Returned result => Returned (Success (reply_id req) result)
  | Thrown e => Returned (internal_error (reply_id req) e)
  end.
Proof.
  unfold is_call. intros Hc Hn Hl. apply andb_true_iff in Hc as [Hv Hm].
  rewrite (tavily_handleRpc_unfold req (version_ok_not_nullish req Hv)), Hv.
  unfold Tavily.dispatch. fold (call_params req). fold (reply_id req).
  destruct (get req "method") as [| | | |m| |] eqn:Em; try discriminate Hm.
  simpl in Hm. apply String.eqb_eq in Hm. subst m. simpl strict_eq_str.
  cbv iota. rewrite Hn.
  rewrite (own_tool_has_property _ key t Hl), Hl. cbn [negb bind].
  destruct (run t (js_or (get (call_params req) "input") (VObj []))); reflexivity.
Qed.

(** Where [callTool] does answer [Tool not found]: in server.ts, a name that
    is falsy, or one whose property key is neither a tool nor a member of
    [Object.prototype]. *)
Lemma server_callTool_not_found req :
  is_call req = true ->
  convertible (get (call_params req) "name") = true ->
  truthy (get (call_params req) "name") = false
  \/ lookup (Server.tools clock) (string_of (get (call_params req) "name")) = Absent ->
  Server.handleRpc clock req =
  Returned (internal_error (reply_id req)
              (Error ("Tool not found: "
                      ++ string_of (get (call_params req) "name")))).
Proof.
  unfold is_call. intros Hc Hconv Hcase. apply andb_true_iff in Hc as [Hv Hm].
  rewrite (server_handleRpc_unfold req (version_ok_not_nullish req Hv)), Hv.
  unfold Server.dispatch. fold (call_params req). fold (reply_id req).
  destruct (get req "method") as [| | | |m| |] eqn:Em; try discriminate Hm.
  simpl in Hm. apply String.eqb_eq in Hm. subst m. simpl strict_eq_str.
  cbv iota. unfold Server.tool_not_found, to_string. rewrite Hconv.
  cbn [bind].
  destruct (truthy (get (call_params req) "name")); cbn [negb]; [|reflexivity].
  destruct Hcase as [Hf|Ha]; [discriminate Hf|].
  unfold has_property. rewrite Ha. reflexivity.
Qed.

(** In tavily.ts, a name that is not a string, or a string that is neither a
    tool nor a member of [Object.prototype]. *)
Lemma tavily_callTool_not_found req :
  is_call req = true ->
  convertible (get (call_params req) "name") = true ->
  is_string (get (call_params req) "name") = false
  \/ lookup (Tavily.TOOLS apiKey search)
            (string_of (get (call_params req) "name")) = Absent ->
  Tavily.handleRpc apiKey search req =
  Returned (internal_error (reply_id req)
              (Error ("Tool not found: "
                      ++ string_of (get (call_params req) "name")))).
Proof.
  unfold is_call. intros Hc Hconv Hcase. apply andb_true_iff in Hc as [Hv Hm].
  rewrite (tavily_handleRpc_unfold req (version_ok_not_nullish req Hv)), Hv.
  unfold Tavily.dispatch. fold (call_params req). fold (reply_id req).
  destruct (get req "method") as [| | | |m| |] eqn:Em; try discriminate Hm.
  simpl in Hm. apply String.eqb_eq in Hm. subst m. simpl strict_eq_str.
  cbv iota. unfold Tavily.tool_not_found, to_string.
  destruct (get (call_params req) "name") as [| |b|n|key|items|fields] eqn:En;
    try (rewrite Hconv; reflexivity).
  destruct Hcase as [Hf|Ha]; [discriminate Hf|].
  simpl in Ha. unfold has_property. rewrite Ha. reflexivity.
Qed.

End Dispatcher.

Section DispatcherClaims.
Context {host : JsHost}.

(** On every value but [null] and [undefined], [handleRpc] of either file
    settles to a response; whatever the [try] block throws, an error a tool
    raises included, comes back as a Failure with code -32000 built from the
    error's message and stack. *)
Lemma handleRpc_settles_on_objects (clock : string) (apiKey : value)
  (search : value -> outcome value) (req : value) :
  nullish req = false ->
  (exists resp, Server.handleRpc clock req = Returned resp)
  /\ (exists resp, Tavily.handleRpc apiKey search req = Returned resp)
  /\ (forall e, version_ok req = true ->
        Server.dispatch clock req = Thrown e ->
        Server.handleRpc clock req =
        Returned (Failure (reply_id req) (-32000)
                    (js_or (thrown_message e) (VStr "Internal error"))
                    (Some (thrown_stack e))))
  /\ (forall e, version_ok req = true ->
        Tavily.dispatch apiKey search req = Thrown e ->
        Tavily.handleRpc apiKey search req =
        Returned (Failure (reply_id req) (-32000)
                    (js_or (thrown_message e) (VStr "Internal error"))
                    (Some (thrown_stack e))))
  /\ (forall key t e, is_call req = true ->
        get (call_params req) "name" = VStr key ->
        lookup (Server.tools clock) key = OwnTool t ->
        run t (get (call_params req) "input") = Thrown e ->
        Server.handleRpc clock req =
        Returned (Failure (reply_id req) (-32000)
                    (js_or (thrown_message e) (VStr "Internal error"))
                    (Some (thrown_stack e))))
  /\ (forall key t e, is_call req = true ->
        get (call_params req) "name" = VStr key ->
        lookup (Tavily.TOOLS apiKey search) key = OwnTool t ->
        run t (js_or (get (call_params req) "input") (VObj [])) = Thrown e ->
        Tavily.handleRpc apiKey search req =
        Returned (Failure (reply_id req) (-32000)
                    (js_or (thrown_message e) (VStr "Internal error"))
                    (Some (thrown_stack e)))).
Proof.
  intros Hreq. repeat split.
  - destruct (server_handleRpc_returns clock req Hreq) as [resp [H _]].
    exists resp. exact H.
  - destruct (tavily_handleRpc_returns apiKey search req Hreq) as [resp [H _]].
    exists resp. exact H.
  - intros e Hv Hd.
    rewrite (server_handleRpc_unfold clock req Hreq), Hv, Hd. reflexivity.
  - intros e Hv Hd.
    rewrite (tavily_handleRpc_unfold apiKey search req Hreq), Hv, Hd. reflexivity.
  - intros key t e Hc Hn Hl Hr.
    rewrite (server_callTool_own clock req key t Hc Hn Hl), Hr. reflexivity.
  - intros key t e Hc Hn Hl Hr.
    rewrite (tavily_callTool_own apiKey search req key t Hc Hn Hl), Hr. reflexivity.
Qed.

(** C1: [handleRpc] can be rejected.  Its first property read,
    [req.jsonrpc], stands before the [try]: on a request that is [null] the
    read throws a [TypeError] that no [catch] converts, and the promise of
    either file is rejected instead of settling to a Failure.  Both callers
    hand it parsed input as it comes.  The command endpoint, on the batch
    [[null]], is rejected in turn: nothing is broadcast and [res.json] is not
    reached.  The stdio loop, on a line that parses to [null], is left with a
    rejected promise, and its [then] callback writes no line.  These are the
    only rejections: a value is rejected exactly when it is [null] or
    [undefined]. *)
Theorem handleRpc_rejects_null_request (clock : string) (apiKey : value)
  (search : value -> outcome value) :
  let rejection :=
    TypeError "Cannot read properties of null (reading 'jsonrpc')" in
  Server.handleRpc clock VNull = Thrown rejection
  /\ Tavily.handleRpc apiKey search VNull = Thrown rejection
  /\ (forall st,
        Server.post_command (fun _ => clock) (VArr [VNull]) st
        = (st, Thrown rejection))
  /\ (forall JSON_parse line st,
        line <> "" ->
        JSON_parse line = Returned VNull ->
        Tavily.on_line apiKey search JSON_parse line st
        = {| Tavily.buffer := Tavily.buffer st;
             Tavily.stdout := Tavily.stdout st;
             Tavily.pending := Tavily.pending st ++ [Thrown rejection] |}
        /\ Tavily.stdout
             (Tavily.settle (List.length (Tavily.pending st))
                (Tavily.on_line apiKey search JSON_parse line st))
           = Tavily.stdout st)
  /\ (forall req,
        (exists e, Server.handleRpc clock req = Thrown e) <-> nullish req = true)
  /\ (forall req,
        (exists e, Tavily.handleRpc apiKey search req = Thrown e)
        <-> nullish req = true).
Proof.
  intros rejection.
  split; [reflexivity|]. split; [reflexivity|]. split; [reflexivity|].
  split.
  { intros JSON_parse line st Hne Hparse.
    assert (E : Tavily.on_line apiKey search JSON_parse line st
                = {| Tavily.buffer := Tavily.buffer st;
                     Tavily.stdout := Tavily.stdout st;
                     Tavily.pending := Tavily.pending st ++ [Thrown rejection] |}).
    { unfold Tavily.on_line.
      destruct (String.eqb line "") eqn:Eq;
        [apply String.eqb_eq in Eq; contradiction|].
      rewrite Hparse. reflexivity. }
    split; [exact E|].
    rewrite E. unfold Tavily.settle. cbn [Tavily.pending Tavily.stdout].
    rewrite nth_error_app2, Nat.sub_diag; [reflexivity | lia]. }
  split; intros req; split.
  - intros [e He]. destruct (nullish req) eqn:Hn; [reflexivity|].
    destruct (server_handleRpc_returns clock req Hn) as [resp [Hr _]].
    rewrite Hr in He. discriminate He.
  - intros Hn.
    exact (proj1 (handleRpc_rejects_nullish clock apiKey search req Hn)).
  - intros [e He]. destruct (nullish req) eqn:Hn; [reflexivity|].
    destruct (tavily_handleRpc_returns apiKey search req Hn) as [resp [Hr _]].
    rewrite Hr in He. discriminate He.
  - intros Hn.
    exact (proj2 (handleRpc_rejects_nullish clock apiKey search req Hn)).
Qed.

(** C2: the response of either file carries [req.id] itself when the request
    has one, and [null] when [id] is absent or [null], whatever the method
    and whether the response is a Success or a Failure. *)
Theorem response_id_echoes_request (clock : string) (apiKey : value)
  (search : value -> outcome value) (req : value) :
  nullish req = false ->
  exists rs rt,
    Server.handleRpc clock req = Returned rs
    /\ Tavily.handleRpc apiKey search req = Returned rt
    /\ (nullish (get req "id") = false ->
          response_id rs = get req "id" /\ response_id rt = get req "id")
    /\ (nullish (get req "id") = true ->
          response_id rs = VNull /\ response_id rt = VNull).
Proof.
  intros Hreq.
  destruct (server_handleRpc_returns clock req Hreq) as [rs [Hs Is]].
  destruct (tavily_handleRpc_returns apiKey search req Hreq) as [rt [Ht It]].
  exists rs, rt. rewrite Is, It. unfold reply_id, js_coalesce.
  repeat split; try assumption; rewrite H; reflexivity.
Qed.

(** C3: names that are no registered tool and yet get no
    [Tool not found: <name>].  A name inherited from [Object.prototype], such
    as [toString], passes [tools[name]] and [name in TOOLS]; calling its
    missing [run] raises a [TypeError], and the Failure, still -32000,
    carries that message.  In server.ts a name that is not a string is used
    as a property key after [ToString], so the array [["echo"]] runs the echo
    tool and the response is a Success.  A name that is an object with an own
    [toString] cannot be converted, for the key or for the message, and the
    Failure carries the [TypeError] of the conversion. *)
Theorem unregistered_name_past_the_guard (clock : string) (apiKey : value)
  (search : value -> outcome value) (id input : value) :
  let call name :=
    VObj [("jsonrpc", VStr "2.0"); ("id", id); ("method", VStr "callTool");
          ("params", VObj [("name", name); ("input", input)])] in
  Server.handleRpc clock (call (VStr "toString"))
  = Returned (Failure (js_coalesce id VNull) (-32000)
                (VStr "tools[name].run is not a function")
                (Some (VStr (error_stack "TypeError"
                               "tools[name].run is not a function"))))
  /\ Tavily.handleRpc apiKey search (call (VStr "toString"))
     = Returned (Failure (js_coalesce id VNull) (-32000)
                   (VStr "tool.run is not a function")
                   (Some (VStr (error_stack "TypeError"
                                  "tool.run is not a function"))))
  /\ Server.handleRpc clock (call (VArr [VStr "echo"]))
     = Returned (Success (js_coalesce id VNull) (VObj [("echo", input)]))
  /\ Server.handleRpc clock (call (VObj [("toString", VNull)]))
     = Returned (Failure (js_coalesce id VNull) (-32000)
                   (VStr "Cannot convert object to primitive value")
                   (Some (VStr (error_stack "TypeError"
                                  "Cannot convert object to primitive value"))))
  /\ Tavily.handleRpc apiKey search (call (VObj [("toString", VNull)]))
     = Returned (Failure (js_coalesce id VNull) (-32000)
                   (VStr "Cannot convert object to primitive value")
                   (Some (VStr (error_stack "TypeError"
                                  "Cannot convert object to primitive value")))).
Proof. repeat split. Qed.

End DispatcherClaims.

Section RegistryClaims.
Context {host : JsHost}.

Lemma server_listTools clock req :
  is_listTools req = true ->
  Server.handleRpc clock req =
  Returned (Success (reply_id req)
    (VArr (map (fun t => VObj [("name", VStr (name t));
                               ("description", VStr (description t))])
               (object_values (Server.tools clock))))).
Proof.
  unfold is_listTools. intros H. apply andb_true_iff in H as [Hv Hm].
  rewrite (server_handleRpc_unfold clock req (version_ok_not_nullish req Hv)), Hv.
  unfold Server.dispatch. fold (reply_id req).
  destruct (get req "method") as [| | | |m| |]; try discriminate Hm.
  simpl in Hm. apply String.eqb_eq in Hm. subst m. reflexivity.
Qed.

Lemma tavily_listTools apiKey search req :
  is_listTools req = true ->
  Tavily.handleRpc apiKey search req =
  Returned (Success (reply_id req)
    (VArr (map (fun t => VObj [("name", VStr (name t));
                               ("description", VStr (description t));
                               ("inputSchema", Tavily.schema_value t)])
               (object_values (Tavily.TOOLS apiKey search))))).
Proof.
  unfold is_listTools. intros H. apply andb_true_iff in H as [Hv Hm].
  rewrite (tavily_handleRpc_unfold apiKey search req (version_ok_not_nullish req Hv)), Hv.
  unfold Tavily.dispatch. fold (reply_id req).
  destruct (get req "method") as [| | | |m| |]; try discriminate Hm.
  simpl in Hm. apply String.eqb_eq in Hm. subst m. reflexivity.
Qed.

(** C8: a [listTools] request is answered, in either file, by a list with one
    entry per registered tool, in the order of the registry; an entry shows
    the tool's own name, description and [inputSchema], and never [run]; a
    second request, at another time and with another id, gets the same list.
    The one tool of tavily.ts has a schema and its entry carries it under
    [inputSchema]; the three tools of server.ts declare none, and their
    entries have the keys [name] and [description] only.  Both lists are
    spelled out. *)
Theorem listTools_public_listing (clock clock' : string) (apiKey : value)
  (search : value -> outcome value) (req req' : value) :
  is_listTools req = true ->
  is_listTools req' = true ->
  exists ls lt,
    Server.handleRpc clock req = Returned (Success (reply_id req) (VArr ls))
    /\ Tavily.handleRpc apiKey search req
       = Returned (Success (reply_id req) (VArr lt))
    /\ List.length ls = List.length (Server.tools clock)
    /\ List.length lt = List.length (Tavily.TOOLS apiKey search)
    /\ Forall2 public_entry (object_values (Server.tools clock)) ls
    /\ Forall2 public_entry (object_values (Tavily.TOOLS apiKey search)) lt
    /\ Forall (fun e => ~ In "run" (own_keys e)) (ls ++ lt)%list
    /\ Forall (fun e => own_keys e = ["name"; "description"]) ls
    /\ Forall (fun e => own_keys e = ["name"; "description"; "inputSchema"]) lt
    /\ Server.handleRpc clock' req' = Returned (Success (reply_id req') (VArr ls))
    /\ Tavily.handleRpc apiKey search req'
       = Returned (Success (reply_id req') (VArr lt))
    /\ Forall (fun t => inputSchema t = None) (object_values (Server.tools clock))
    /\ Forall (fun t => inputSchema t = Some Tavily.tavily_search_schema)
              (object_values (Tavily.TOOLS apiKey search))
    /\ ls = [VObj [("name", VStr "echo");
                   ("description", VStr "Return the provided input. / 回显输入内容")];
             VObj [("name", VStr "now");
                   ("description", VStr "Return current ISO timestamp. / 返回当前时间戳")];
             VObj [("name", VStr "sum");
                   ("description", VStr "Sum numbers in an array. / 对数组中的数字求和")]]
    /\ lt = [VObj [("name", VStr "tavily_search");
                   ("description",
                    VStr "Perform a web search using Tavily API. 输入自然语言查询，返回最新互联网信息摘要。");
                   ("inputSchema", Tavily.tavily_search_schema)]].
Proof.
  intros H H'.
  rewrite (server_listTools clock req H), (server_listTools clock' req' H').
  rewrite (tavily_listTools apiKey search req H), (tavily_listTools apiKey search req' H').
  eexists. eexists.
  split; [reflexivity|]. split; [reflexivity|].
  split; [reflexivity|]. split; [reflexivity|].
  split.
  { simpl. repeat (apply Forall2_cons || apply Forall2_nil).
    all: unfold public_entry; cbn [inputSchema Server.echo Server.now Server.sum];
      split; [reflexivity|]; split; [reflexivity|]; split;
      [ simpl; intros [Hx|[Hx|[]]]; discriminate Hx
      | intros x Hx; simpl in Hx |- *; tauto ]. }
  split.
  { simpl. repeat (apply Forall2_cons || apply Forall2_nil).
    unfold public_entry. cbn [inputSchema Tavily.tavily_search].
    split; [reflexivity|]. split; [reflexivity|]. split.
    - split; [simpl; tauto | reflexivity].
    - intros x Hx. simpl in Hx |- *. tauto. }
  split.
  { simpl. repeat (apply Forall_cons || apply Forall_nil).
    all: simpl; intros Hx;
      repeat (destruct Hx as [Hx|Hx]; [discriminate Hx|]); destruct Hx. }
  split; [simpl; repeat (apply Forall_cons || apply Forall_nil); reflexivity|].
  split; [simpl; repeat (apply Forall_cons || apply Forall_nil); reflexivity|].
  split; [reflexivity|]. split; [reflexivity|].
  split; [simpl; repeat (apply Forall_cons || apply Forall_nil); reflexivity|].
  split; [simpl; repeat (apply Forall_cons || apply Forall_nil); reflexivity|].
  split; reflexivity.
Qed.

Lemma falsy_convertible v : truthy v = false -> convertible v = true.
Proof. destruct v; simpl; intros H; try reflexivity; discriminate H. Qed.

Lemma addend_convertible v :
  convertible v = true -> convertible (js_or v (VNum (num_of_Z 0))) = true.
Proof. unfold js_or. destruct (truthy v); [tauto | reflexivity]. Qed.

Lemma reduce_sum_converts items : forall acc,
  forallb convertible items = true ->
  Server.reduce_sum acc items =
  Returned (fold_left
              (fun a v => num_add a (number_of (js_or v (VNum (num_of_Z 0)))))
              items acc).
Proof.
  induction items as [|v items IH]; intros acc H; [reflexivity|].
  simpl in H. apply andb_true_iff in H as [Hv Hrest].
  cbn [Server.reduce_sum fold_left]. unfold to_number.
  rewrite (addend_convertible v Hv). cbn [bind]. apply IH. exact Hrest.
Qed.

Lemma reduce_sum_throws items : forall acc,
  forallb convertible items = false ->
  Server.reduce_sum acc items = Thrown (TypeError cannot_convert).
Proof.
  induction items as [|v items IH]; intros acc H; [discriminate H|].
  simpl in H. cbn [Server.reduce_sum]. unfold to_number.
  destruct (convertible v) eqn:Hv.
  - rewrite (addend_convertible v Hv). cbn [bind]. apply IH. exact H.
  - assert (Ht : truthy v = true).
    { destruct (truthy v) eqn:E; [reflexivity|].
      rewrite (falsy_convertible v E) in Hv. discriminate Hv. }
    unfold js_or. rewrite Ht, Hv. reflexivity.
Qed.

(** C10, amended: [callTool] of [sum] on an array whose elements [Number]
    can convert answers [{total}], the fold from the left of
    [acc + Number(v || 0)] starting at [0]; the empty array gives [0]; an
    element that is falsy adds [Number(0)]; an array with an element
    [Number] cannot convert gives the Failure -32000 of the [TypeError]; an
    input that is not an array gives the Failure -32000
    [Input must be array of numbers]. *)
Theorem sum_tool_total (clock : string) (req : value) :
  is_call req = true ->
  get (call_params req) "name" = VStr "sum" ->
  (forall items, get (call_params req) "input" = VArr items ->
     forallb convertible items = true ->
     Server.handleRpc clock req =
     Returned (Success (reply_id req)
       (VObj [("total",
               VNum (fold_left
                       (fun acc v =>
                          num_add acc (number_of (js_or v (VNum (num_of_Z 0)))))
                       items (num_of_Z 0)))])))
  /\ (get (call_params req) "input" = VArr [] ->
      Server.handleRpc clock req =
      Returned (Success (reply_id req) (VObj [("total", VNum (num_of_Z 0))])))
  /\ (forall v, truthy v = false ->
      to_number (js_or v (VNum (num_of_Z 0))) = Returned (num_of_Z 0))
  /\ (forall items, get (call_params req) "input" = VArr items ->
      forallb convertible items = false ->
      Server.handleRpc clock req =
      Returned (Failure (reply_id req) (-32000) (VStr cannot_convert)
                  (Some (VStr (error_stack "TypeError" cannot_convert)))))
  /\ (is_array (get (call_params req) "input") = false ->
      Server.handleRpc clock req =
      Returned (Failure (reply_id req) (-32000)
                  (VStr "Input must be array of numbers")
                  (Some (VStr (error_stack "Error"
                                 "Input must be array of numbers"))))).
Proof.
  intros Hc Hn.
  pose proof (server_callTool_own clock req "sum" Server.sum Hc Hn eq_refl) as E.
  repeat split.
  - intros items Hi Hall. rewrite E, Hi. simpl run.
    rewrite (reduce_sum_converts items _ Hall). reflexivity.
  - intros Hi. rewrite E, Hi. reflexivity.
  - intros v Hv. unfold js_or. rewrite Hv. reflexivity.
  - intros items Hi Hall. rewrite E, Hi. simpl run.
    rewrite (reduce_sum_throws items _ Hall). reflexivity.
  - intros Hi. rewrite E.
    destruct (get (call_params req) "input"); try reflexivity. discriminate Hi.
Qed.

End RegistryClaims.

(* ================================================================== *)
(** * The SSE transport and the command endpoint *)
(* ================================================================== *)

Section Sse.
Context {host : JsHost}.

Import Server.

Lemma js_incr_le n : (n <= js_incr n)%Z.
Proof. unfold js_incr. destruct (n <? 2 ^ 53)%Z; lia. Qed.

Lemma js_incr_exact n : (n < 2 ^ 53)%Z -> js_incr n = (n + 1)%Z.
Proof.
  intros H. unfold js_incr.
  destruct (n <? 2 ^ 53)%Z eqn:E; [reflexivity|].
  apply Z.ltb_ge in E. lia.
Qed.

Lemma js_incr_below n : (js_incr n < 2 ^ 53)%Z -> (n < 2 ^ 53)%Z.
Proof. pose proof (js_incr_le n). lia. Qed.

Lemma ids_of_app w1 w2 : ids_of (w1 ++ w2) = (ids_of w1 ++ ids_of w2)%list.
Proof. unfold ids_of. apply flat_map_app. Qed.

Lemma ids_seen_by_app r w1 w2 :
  ids_seen_by r (w1 ++ w2) = (ids_seen_by r w1 ++ ids_seen_by r w2)%list.
Proof. unfold ids_seen_by. rewrite filter_app. apply ids_of_app. Qed.

Lemma sockets_set_lastEventId k n st :
  sockets (set_lastEventId k n st) = sockets st.
Proof.
  unfold sockets, set_lastEventId. simpl. rewrite map_map.
  apply map_ext. intros e. destruct (String.eqb k (fst e)); reflexivity.
Qed.

(** One turn of the loop of [broadcast]. *)
Lemma write_frame_spec k c event data st :
  globalEventSeq (write_frame k c event data st) = globalEventSeq st
  /\ wire (write_frame k c event data st)
     = (wire st ++ frame (res c) (globalEventSeq st) event data)%list
  /\ sockets (write_frame k c event data st) = sockets st.
Proof.
  unfold write_frame. cbv zeta. rewrite sockets_set_lastEventId.
  simpl. repeat rewrite <- app_assoc. repeat split.
Qed.

(** The whole loop: the counter is not touched, and every entry of the
    snapshot gets one frame stamped with it. *)
Lemma frames_loop event data l : forall st,
  let st' := fold_left (fun s e => write_frame (fst e) (snd e) event data s) l st in
  globalEventSeq st' = globalEventSeq st
  /\ wire st' = (wire st ++ flat_map (fun e => frame (res (snd e))
                                     (globalEventSeq st) event data) l)%list
  /\ sockets st' = sockets st.
Proof.
  induction l as [|e l IH]; intros st; cbv zeta.
  - simpl. rewrite app_nil_r. repeat split.
  - simpl fold_left.
    destruct (write_frame_spec (fst e) (snd e) event data st) as [Hs [Hw Hk]].
    destruct (IH (write_frame (fst e) (snd e) event data st)) as [Hs' [Hw' Hk']].
    rewrite Hs', Hw', Hk', Hs, Hw, Hk. cbn [flat_map].
    rewrite <- app_assoc. repeat split.
Qed.

Lemma broadcast_spec event data st :
  globalEventSeq (broadcast event data st) = js_incr (globalEventSeq st)
  /\ wire (broadcast event data st)
     = (wire st ++ flat_map (fun e => frame (res (snd e)) (globalEventSeq st)
                                            event data) (clients st))%list
  /\ sockets (broadcast event data st) = sockets st.
Proof.
  destruct (frames_loop event data (clients st) st) as [Hs [Hw Hk]].
  unfold broadcast. cbv zeta. unfold sockets in *. simpl.
  rewrite Hs, Hw, Hk. repeat split.
Qed.

Lemma map_set_sockets k c (m : list (string * ClientConn)) :
  incl (map (fun e => res (snd e)) (map_set k c m))
       (res c :: map (fun e => res (snd e)) m).
Proof.
  induction m as [|[k' c'] m IH]; simpl.
  - intros x Hx. exact Hx.
  - destruct (String.eqb k k'); simpl.
    + intros x [<-|Hx]; [left; reflexivity | right; right; exact Hx].
    + intros x [<-|Hx]; [right; left; reflexivity|].
      destruct (IH x Hx) as [<-|H]; [left; reflexivity | right; right; exact H].
Qed.

Lemma map_set_NoDup k c (m : list (string * ClientConn)) :
  NoDup (map (fun e => res (snd e)) m) ->
  ~ In (res c) (map (fun e => res (snd e)) m) ->
  NoDup (map (fun e => res (snd e)) (map_set k c m)).
Proof.
  induction m as [|[k' c'] m IH]; simpl; intros Hnd Hin.
  - constructor; [intros []|constructor].
  - inversion Hnd as [|x l Hx Hl]; subst.
    destruct (String.eqb k k'); simpl.
    + constructor; [tauto | exact Hl].
    + constructor.
      * intros Hc. apply map_set_sockets in Hc. destruct Hc as [Hc|Hc].
        -- apply Hin. left. symmetry. exact Hc.
        -- exact (Hx Hc).
      * apply IH; tauto.
Qed.

Lemma sse_accept_spec clientId socket h created serverTime st :
  globalEventSeq (sse_accept clientId socket h created serverTime st)
  = js_incr (globalEventSeq st)
  /\ wire (sse_accept clientId socket h created serverTime st)
     = (wire st ++ frame socket (globalEventSeq st) "welcome"
                      (VObj [("clientId", VStr clientId);
                             ("serverTime", VStr serverTime)]))%list
  /\ sockets (sse_accept clientId socket h created serverTime st)
     = map (fun e => res (snd e))
           (map_set clientId
              {| id := clientId; res := socket; createdAt := created;
                 lastEventId := header_number h |} (clients st)).
Proof.
  unfold sse_accept, welcome, register. cbv zeta.
  unfold sockets. simpl. repeat rewrite <- app_assoc. rewrite map_map.
  repeat split.
  apply map_ext. intros e. destruct (String.eqb clientId (fst e)); reflexivity.
Qed.

End Sse.

Section SseOrder.
Context {host : JsHost}.

Import Server.

Lemma ordered_init : ordered init.
Proof.
  split; simpl; try constructor. lia.
Qed.

Lemma StronglySorted_app {A : Type} (R : A -> A -> Prop) (a b : list A) :
  StronglySorted R a -> StronglySorted R b ->
  (forall x y, In x a -> In y b -> R x y) ->
  StronglySorted R (a ++ b).
Proof.
  induction a as [|x a IH]; simpl; intros Ha Hb Hab; [exact Hb|].
  inversion Ha as [|x' a' Hsa Hxa]; subst. constructor.
  - apply IH; auto.
  - apply Forall_app. split; [exact Hxa|].
    apply Forall_forall. intros y Hy. apply Hab; auto.
Qed.

Lemma all_equal_sorted (s : Z) (b : list Z) :
  Forall (eq s) b -> StronglySorted Z.le b.
Proof.
  induction 1 as [|x b Hx Hb IH]; constructor; [exact IH|].
  subst x. apply Forall_forall. intros y Hy.
  rewrite Forall_forall in Hb. rewrite <- (Hb y Hy). lia.
Qed.

Lemma ids_seen_by_subset r w i : In i (ids_seen_by r w) -> In i (ids_of w).
Proof.
  unfold ids_seen_by, ids_of. rewrite !in_flat_map.
  intros [e [He Hi]]. exists e. split; [|exact Hi].
  apply filter_In in He. tauto.
Qed.

(** A handler that stamps the current counter on what it writes, at most once
    per response object, and then increments it. *)
Lemma ordered_emit st st' new :
  ordered st ->
  globalEventSeq st' = js_incr (globalEventSeq st) ->
  (globalEventSeq st' < 2 ^ 53)%Z ->
  wire st' = (wire st ++ new)%list ->
  Forall (eq (globalEventSeq st)) (ids_of new) ->
  (forall r, ids_seen_by r new = [] \/ ids_seen_by r new = [globalEventSeq st]) ->
  NoDup (sockets st') ->
  ordered st'.
Proof.
  intros [Hpos Hsort Hbelow Hnd Hseen] Hs Hlt Hw Hnew Hone Hnd'.
  rewrite Hs in Hlt. apply js_incr_below in Hlt.
  rewrite (js_incr_exact _ Hlt) in Hs.
  rewrite Forall_forall in Hbelow.
  split.
  - lia.
  - rewrite Hw, ids_of_app. apply StronglySorted_app.
    + exact Hsort.
    + exact (all_equal_sorted _ _ Hnew).
    + intros x y Hx Hy. rewrite Forall_forall in Hnew.
      rewrite <- (Hnew y Hy). specialize (Hbelow x Hx). lia.
  - rewrite Hw, ids_of_app, Hs. apply Forall_app. split.
    + apply Forall_forall. intros x Hx. specialize (Hbelow x Hx). lia.
    + apply Forall_forall. intros y Hy. rewrite Forall_forall in Hnew.
      rewrite <- (Hnew y Hy). lia.
  - exact Hnd'.
  - intros r. rewrite Hw, ids_seen_by_app.
    destruct (Hone r) as [E|E]; rewrite E.
    + rewrite app_nil_r. apply Hseen.
    + apply StronglySorted_app.
      * apply Hseen.
      * repeat constructor.
      * intros x y Hx [<-|[]]. apply ids_seen_by_subset in Hx.
        specialize (Hbelow x Hx). lia.
Qed.

Lemma frame_ids r s event data : ids_of (frame r s event data) = [s].
Proof. reflexivity. Qed.

Lemma frame_seen r r' s event data :
  ids_seen_by r' (frame r s event data) = if Nat.eqb r r' then [s] else [].
Proof.
  unfold ids_seen_by, frame. simpl. destruct (Nat.eqb r r'); reflexivity.
Qed.

Lemma frames_ids s event data (l : list (string * ClientConn)) :
  Forall (eq s)
    (ids_of (flat_map (fun e => frame (res (snd e)) s event data) l)).
Proof.
  induction l as [|e l IH]; simpl; [constructor|].
  constructor; [reflexivity | exact IH].
Qed.

Lemma frames_seen_absent s event data r (l : list (string * ClientConn)) :
  ~ In r (map (fun e => res (snd e)) l) ->
  ids_seen_by r (flat_map (fun e => frame (res (snd e)) s event data) l) = [].
Proof.
  induction l as [|e l IH]; simpl; intros H; [reflexivity|].
  change (ids_seen_by r (frame (res (snd e)) s event data
            ++ flat_map (fun e => frame (res (snd e)) s event data) l) = []).
  rewrite ids_seen_by_app, frame_seen.
  destruct (Nat.eqb (res (snd e)) r) eqn:E.
  - apply Nat.eqb_eq in E. tauto.
  - apply IH. tauto.
Qed.

Lemma frames_seen_once s event data r (l : list (string * ClientConn)) :
  NoDup (map (fun e => res (snd e)) l) ->
  ids_seen_by r (flat_map (fun e => frame (res (snd e)) s event data) l) = []
  \/ ids_seen_by r (flat_map (fun e => frame (res (snd e)) s event data) l) = [s].
Proof.
  induction l as [|e l IH]; simpl; intros H; [left; reflexivity|].
  inversion H as [|x l' Hx Hl]; subst.
  change (ids_seen_by r (frame (res (snd e)) s event data
            ++ flat_map (fun e => frame (res (snd e)) s event data) l) = []
          \/ ids_seen_by r (frame (res (snd e)) s event data
            ++ flat_map (fun e => frame (res (snd e)) s event data) l) = [s]).
  rewrite ids_seen_by_app, frame_seen.
  destruct (Nat.eqb (res (snd e)) r) eqn:E.
  - apply Nat.eqb_eq in E. subst r.
    rewrite (frames_seen_absent s event data _ l Hx). right. reflexivity.
  - exact (IH Hl).
Qed.

Lemma ordered_broadcast event data st :
  ordered st ->
  (globalEventSeq (broadcast event data st) < 2 ^ 53)%Z ->
  ordered (broadcast event data st).
Proof.
  intros Ho Hlt.
  destruct (broadcast_spec event data st) as [Hs [Hw Hk]].
  apply (ordered_emit st _ _ Ho Hs Hlt Hw).
  - apply frames_ids.
  - intros r. apply frames_seen_once. exact (sockets_distinct st Ho).
  - rewrite Hk. exact (sockets_distinct st Ho).
Qed.

Lemma ordered_accept clientId socket h created serverTime st :
  ordered st ->
  ~ In socket (sockets st) ->
  (globalEventSeq (sse_accept clientId socket h created serverTime st) < 2 ^ 53)%Z ->
  ordered (sse_accept clientId socket h created serverTime st).
Proof.
  intros Ho Hfresh Hlt.
  destruct (sse_accept_spec clientId socket h created serverTime st)
    as [Hs [Hw Hk]].
  apply (ordered_emit st _ _ Ho Hs Hlt Hw).
  - repeat constructor.
  - intros r. rewrite frame_seen. destruct (Nat.eqb socket r); auto.
  - rewrite Hk. apply map_set_NoDup.
    + exact (sockets_distinct st Ho).
    + exact Hfresh.
Qed.

Lemma sockets_close clientId st :
  incl (sockets (sse_close clientId st)) (sockets st).
Proof.
  unfold sockets, sse_close, map_delete. simpl. intros x Hx.
  apply in_map_iff in Hx as [e [<- He]]. apply filter_In in He.
  apply (in_map (fun e => res (snd e))). tauto.
Qed.

Lemma map_delete_distinct clientId (m : list (string * ClientConn)) :
  NoDup (map (fun e => res (snd e)) m) ->
  NoDup (map (fun e => res (snd e)) (map_delete clientId m)).
Proof.
  unfold map_delete.
  induction m as [|[k c] m IH]; intros Hnd; [exact Hnd|].
  cbn [map snd] in Hnd.
  apply NoDup_cons_iff in Hnd. destruct Hnd as [Hfresh Hrest].
  cbn [filter fst]. destruct (negb (String.eqb clientId k)).
  - cbn [map snd]. apply NoDup_cons_iff. split; [|exact (IH Hrest)].
    intros Hin. apply Hfresh.
    apply in_map_iff in Hin. destruct Hin as [e [He Hin]].
    apply filter_In in Hin. rewrite <- He.
    apply (in_map (fun e => res (snd e))). exact (proj1 Hin).
  - exact (IH Hrest).
Qed.

Lemma ordered_close clientId st : ordered st -> ordered (sse_close clientId st).
Proof.
  intros [Hpos Hsort Hbelow Hnd Hseen]. split; simpl; try assumption.
  unfold sockets, sse_close. simpl. apply map_delete_distinct. exact Hnd.
Qed.

End SseOrder.

Section SseRuns.
Context {host : JsHost}.

Import Server.

Lemma emits_cons d l st :
  emits (d :: l) st = emits l (broadcast (fst d) (snd d) st).
Proof. reflexivity. Qed.

Lemma emits_seq_le l : forall st,
  (globalEventSeq st <= globalEventSeq (emits l st))%Z.
Proof.
  induction l as [|d l IH]; intros st; [simpl; lia|].
  rewrite emits_cons.
  specialize (IH (broadcast (fst d) (snd d) st)).
  destruct (broadcast_spec (fst d) (snd d) st) as [Hs _].
  rewrite Hs in IH.
  pose proof (js_incr_le (globalEventSeq st)). lia.
Qed.

Lemma emits_sockets l : forall st, sockets (emits l st) = sockets st.
Proof.
  induction l as [|d l IH]; intros st; [reflexivity|].
  rewrite emits_cons, IH.
  destruct (broadcast_spec (fst d) (snd d) st) as [_ [_ Hk]]. exact Hk.
Qed.

Lemma ordered_emits l : forall st,
  ordered st -> (globalEventSeq (emits l st) < 2 ^ 53)%Z -> ordered (emits l st).
Proof.
  induction l as [|d l IH]; intros st Ho Hlt; [exact Ho|].
  rewrite emits_cons in *.
  apply IH; [|exact Hlt]. apply ordered_broadcast; [exact Ho|].
  pose proof (emits_seq_le l (broadcast (fst d) (snd d) st)). lia.
Qed.

(** The state the loop of [POST /mcp/command] leaves: the responses it got to
    were broadcast one after the other. *)
Lemma command_loop_emits clock reqs : forall i acc st,
  exists sent,
    fst (command_loop clock i reqs acc st)
    = emits (map (fun d => ("rpc", d)) sent) st.
Proof.
  induction reqs as [|r reqs IH]; intros i acc st; simpl.
  - exists []. reflexivity.
  - destruct (handleRpc (clock i) r) as [resp|e].
    + destruct (IH (S i) (acc ++ [resp])%list
                   (broadcast "rpc" (response_to_value resp) st)) as [sent Hs].
      exists (response_to_value resp :: sent). rewrite Hs. reflexivity.
    + exists []. reflexivity.
Qed.

Lemma post_command_state clock body st :
  fst (post_command clock body st)
  = fst (command_loop clock 0
           (match body with VArr items => items | _ => [body] end) [] st).
Proof.
  unfold post_command.
  destruct (command_loop clock 0 _ [] st) as [st' [resps|e]]; reflexivity.
Qed.

(** Every handler is an accept, a close or a series of broadcasts. *)
Lemma step_cases st a :
  (exists clientId socket h created serverTime,
      a = Accept clientId socket h created serverTime)
  \/ (exists clientId, a = Close clientId)
  \/ (accepted [a] = [] /\ exists l, step st a = emits l st).
Proof.
  destruct a as [clientId socket h created serverTime|clientId|ts|clock body].
  - left. repeat eexists.
  - right. left. eexists. reflexivity.
  - right. right. split; [reflexivity|].
    exists [("tick", VObj [("ts", VNum (num_of_Z ts))])]. reflexivity.
  - right. right. split; [reflexivity|]. simpl. rewrite post_command_state.
    destruct (command_loop_emits clock
                (match body with VArr items => items | _ => [body] end) 0 [] st)
      as [sent Hs].
    eexists. exact Hs.
Qed.

Lemma step_seq_le st a : (globalEventSeq st <= globalEventSeq (step st a))%Z.
Proof.
  destruct (step_cases st a) as [H|[H|[_ [l H]]]].
  - destruct H as [c [s [h [cr [t ->]]]]]. unfold step.
    destruct (sse_accept_spec c s h cr t st) as [Hs _]. rewrite Hs.
    apply js_incr_le.
  - destruct H as [c ->]. simpl. lia.
  - rewrite H. apply emits_seq_le.
Qed.

Lemma run_seq_le acts : forall st,
  (globalEventSeq st <= globalEventSeq (run acts st))%Z.
Proof.
  induction acts as [|a acts IH]; intros st; [simpl; lia|].
  change (run (a :: acts) st) with (run acts (step st a)).
  specialize (IH (step st a)). pose proof (step_seq_le st a). lia.
Qed.

Lemma step_sockets st a :
  incl (sockets (step st a)) (accepted [a] ++ sockets st)%list.
Proof.
  destruct (step_cases st a) as [H|[H|[Ha [l H]]]].
  - destruct H as [c [s [h [cr [t ->]]]]]. unfold step.
    destruct (sse_accept_spec c s h cr t st) as [_ [_ Hk]]. rewrite Hk.
    apply map_set_sockets.
  - destruct H as [c ->]. unfold step. apply sockets_close.
  - rewrite H, Ha, emits_sockets. apply incl_refl.
Qed.

Lemma ordered_step st a :
  ordered st ->
  (forall s, In s (accepted [a]) -> ~ In s (sockets st)) ->
  (globalEventSeq (step st a) < 2 ^ 53)%Z ->
  ordered (step st a).
Proof.
  intros Ho Hfresh Hlt.
  destruct (step_cases st a) as [H|[H|[_ [l H]]]].
  - destruct H as [c [s [h [cr [t ->]]]]]. unfold step in *.
    apply ordered_accept; [exact Ho | | exact Hlt].
    apply Hfresh. left. reflexivity.
  - destruct H as [c ->]. unfold step. apply ordered_close. exact Ho.
  - rewrite H in *. apply ordered_emits; assumption.
Qed.

Lemma NoDup_app_disjoint {A : Type} (a b : list A) x :
  NoDup (a ++ b) -> In x a -> In x b -> False.
Proof.
  induction a as [|y a IH]; simpl; intros Hnd Ha Hb; [contradiction|].
  inversion Hnd as [|z l Hz Hl]; subst. destruct Ha as [->|Ha].
  - apply Hz. apply in_or_app. right. exact Hb.
  - exact (IH Hl Ha Hb).
Qed.

Lemma accepted_cons a acts :
  accepted (a :: acts) = (accepted [a] ++ accepted acts)%list.
Proof. unfold accepted. simpl. rewrite app_nil_r. reflexivity. Qed.

Lemma ordered_run acts : forall st,
  ordered st ->
  NoDup (accepted acts) ->
  (forall s, In s (accepted acts) -> ~ In s (sockets st)) ->
  (globalEventSeq (run acts st) < 2 ^ 53)%Z ->
  ordered (run acts st).
Proof.
  induction acts as [|a acts IH]; intros st Ho Hnd Hfresh Hlt; [exact Ho|].
  rewrite accepted_cons in Hnd, Hfresh.
  change (run (a :: acts) st) with (run acts (step st a)) in *.
  apply IH.
  - apply ordered_step; [exact Ho | |].
    + intros s Hs. apply Hfresh. apply in_or_app. left. exact Hs.
    + pose proof (run_seq_le acts (step st a)). lia.
  - apply NoDup_app_remove_l in Hnd. exact Hnd.
  - intros s Hs Hin. apply step_sockets in Hin.
    apply in_app_or in Hin. destruct Hin as [Hin|Hin].
    + exact (NoDup_app_disjoint _ _ s Hnd Hin Hs).
    + apply (Hfresh s); [|exact Hin]. apply in_or_app. right. exact Hs.
  - exact Hlt.
Qed.

End SseRuns.

Section SseClaims.
Context {host : JsHost}.

Import Server.

(** The counter at 2^53: the increment rounds back, and the next broadcast
    stamps the same id again.  The order of ids below is stated for the runs
    that stay under this value. *)
Lemma js_incr_stuck : js_incr (2 ^ 53) = (2 ^ 53)%Z.
Proof. reflexivity. Qed.

(** C4: in the state [st] any run of the server reaches (each connection
    accepted on its own response object, the counter below 2^53):
    [broadcast] adds one to the counter whatever the number of registered
    connections, none included, and writes one frame per connection, all
    stamped with the value the counter had; the accept handler stamps its
    welcome frame the same way and adds one as well; every id written so far
    is below the counter, so the next event gets an id above all of them; the
    ids on the wire never decrease and those one connection sees strictly
    increase. *)
Theorem broadcast_sequence_increases (acts : list action) :
  NoDup (accepted acts) ->
  (globalEventSeq (run acts init) < 2 ^ 53)%Z ->
  let st := run acts init in
  (forall event data,
      globalEventSeq (broadcast event data st) = (globalEventSeq st + 1)%Z
      /\ wire (broadcast event data st)
         = (wire st ++ flat_map (fun e => frame (res (snd e)) (globalEventSeq st)
                                               event data) (clients st))%list)
  /\ (forall event data, clients st = [] ->
      globalEventSeq (broadcast event data st) = (globalEventSeq st + 1)%Z
      /\ wire (broadcast event data st) = wire st)
  /\ (forall clientId socket h created serverTime,
      globalEventSeq (sse_accept clientId socket h created serverTime st)
      = (globalEventSeq st + 1)%Z
      /\ wire (sse_accept clientId socket h created serverTime st)
         = (wire st ++ frame socket (globalEventSeq st) "welcome"
                          (VObj [("clientId", VStr clientId);
                                 ("serverTime", VStr serverTime)]))%list)
  /\ Forall (fun i => (1 <= i < globalEventSeq st)%Z) (ids_of (wire st))
  /\ StronglySorted Z.le (ids_of (wire st))
  /\ (forall r, StronglySorted Z.lt (ids_seen_by r (wire st))).
Proof.
  intros Hnd Hlt st.
  assert (Ho : ordered st).
  { apply ordered_run; [exact ordered_init | exact Hnd | | exact Hlt].
    intros s _ []. }
  change (globalEventSeq st < 2 ^ 53)%Z in Hlt. clearbody st.
  split; [|split; [|split; [|split; [|split]]]].
  - intros event data.
    destruct (broadcast_spec event data st) as [Hs [Hw _]].
    rewrite Hs, Hw, (js_incr_exact _ Hlt). split; reflexivity.
  - intros event data Hc.
    destruct (broadcast_spec event data st) as [Hs [Hw _]].
    rewrite Hs, Hw, (js_incr_exact _ Hlt), Hc. simpl. rewrite app_nil_r.
    split; reflexivity.
  - intros clientId socket h created serverTime.
    destruct (sse_accept_spec clientId socket h created serverTime st)
      as [Hs [Hw _]].
    rewrite Hs, Hw, (js_incr_exact _ Hlt). split; reflexivity.
  - exact (ids_below st Ho).
  - exact (ids_sorted st Ho).
  - exact (seen_sorted st Ho).
Qed.

Lemma assoc_map_set {A : Type} k (a : A) m : assoc k (map_set k a m) = Some a.
Proof.
  induction m as [|[k' a'] m IH]; simpl.
  - rewrite String.eqb_refl. reflexivity.
  - destruct (String.eqb k k') eqn:E; simpl.
    + rewrite String.eqb_refl. reflexivity.
    + rewrite E. exact IH.
Qed.

Lemma assoc_set_lastEventId k n c (m : list (string * ClientConn)) :
  assoc k m = Some c ->
  assoc k (map (fun e => if String.eqb k (fst e)
                         then (fst e, {| id := id (snd e); res := res (snd e);
                                         createdAt := createdAt (snd e);
                                         lastEventId := n |})
                         else e) m)
  = Some {| id := id c; res := res c; createdAt := createdAt c;
            lastEventId := n |}.
Proof.
  induction m as [|[k' c'] m IH]; simpl; [discriminate|].
  destruct (String.eqb k k') eqn:E; simpl; rewrite E.
  - intros H. inversion H; subst. reflexivity.
  - exact IH.
Qed.

(** The connection object differs by its marker only, and the welcome event
    overwrites the marker. *)
Lemma overwrite_map_set k n (c c' : ClientConn) (m : list (string * ClientConn)) :
  id c = id c' -> res c = res c' -> createdAt c = createdAt c' ->
  map (fun e => if String.eqb k (fst e)
                then (fst e, {| id := id (snd e); res := res (snd e);
                                createdAt := createdAt (snd e);
                                lastEventId := n |})
                else e) (map_set k c m)
  = map (fun e => if String.eqb k (fst e)
                  then (fst e, {| id := id (snd e); res := res (snd e);
                                  createdAt := createdAt (snd e);
                                  lastEventId := n |})
                  else e) (map_set k c' m).
Proof.
  intros Hi Hr Hc.
  induction m as [|[k' a] m IH]; simpl.
  - rewrite String.eqb_refl, Hi, Hr, Hc. reflexivity.
  - destruct (String.eqb k k') eqn:E; simpl.
    + rewrite String.eqb_refl, Hi, Hr, Hc. reflexivity.
    + rewrite E, IH. reflexivity.
Qed.

Lemma sse_accept_ignores_header clientId socket h h' created serverTime st :
  sse_accept clientId socket h created serverTime st
  = sse_accept clientId socket h' created serverTime st.
Proof.
  unfold sse_accept, welcome, register, set_lastEventId, write. simpl.
  f_equal. apply overwrite_map_set; reflexivity.
Qed.

Lemma step_ignores_header st a b : same_but_header a b -> step st a = step st b.
Proof.
  intros [clientId socket h h' created serverTime|c]; [|reflexivity].
  apply sse_accept_ignores_header.
Qed.

(** C9: the accept handler puts the number read from [Last-Event-ID] in the
    connection object it registers, and the welcome event then overwrites it
    with the sequence id; two runs that differ only in the headers clients
    send go through the same states, so every response object is sent the
    same chunks in both. *)
Theorem resume_marker_never_used (acts1 acts2 : list action) (st : server_state) :
  Forall2 same_but_header acts1 acts2 ->
  run acts1 st = run acts2 st
  /\ (forall r, received r (run acts1 st) = received r (run acts2 st))
  /\ (forall clientId socket h created st0,
        exists conn,
          assoc clientId (clients (register clientId socket h created st0))
          = Some conn
          /\ lastEventId conn = header_number h)
  /\ (forall clientId socket h created serverTime st0,
        exists conn,
          assoc clientId
            (clients (sse_accept clientId socket h created serverTime st0))
          = Some conn
          /\ lastEventId conn = num_of_Z (globalEventSeq st0)).
Proof.
  intros H.
  assert (E : run acts1 st = run acts2 st).
  { revert st. induction H as [|a b l1 l2 Hab Hl IH]; intros st; [reflexivity|].
    change (run (a :: l1) st) with (run l1 (step st a)).
    change (run (b :: l2) st) with (run l2 (step st b)).
    rewrite (step_ignores_header st a b Hab). apply IH. }
  split; [exact E|]. split; [intros r; rewrite E; reflexivity|]. split.
  - intros clientId socket h created st0. eexists. split.
    + unfold register. simpl. apply assoc_map_set.
    + reflexivity.
  - intros clientId socket h created serverTime st0. eexists. split.
    + unfold sse_accept, welcome, register, set_lastEventId, write. simpl.
      apply assoc_set_lastEventId. apply assoc_map_set.
    + reflexivity.
Qed.

Lemma command_loop_all clock reqs : forall i acc st,
  Forall (fun r => nullish r = false) reqs ->
  exists resps,
    List.length resps = List.length reqs
    /\ (forall k r, nth_error reqs k = Some r ->
          exists resp, nth_error resps k = Some resp
                       /\ handleRpc (clock (i + k)) r = Returned resp)
    /\ command_loop clock i reqs acc st
       = (fold_left (fun s resp => broadcast "rpc" (response_to_value resp) s)
                    resps st,
          Returned (acc ++ resps)%list).
Proof.
  induction reqs as [|r reqs IH]; intros i acc st Hall.
  - exists []. simpl. rewrite app_nil_r. repeat split.
    intros k r H. destruct k; discriminate H.
  - inversion Hall as [|x l Hr Hrest]; subst.
    destruct (server_handleRpc_returns (clock i) r Hr) as [resp [Hresp _]].
    destruct (IH (S i) (acc ++ [resp])%list
                 (broadcast "rpc" (response_to_value resp) st) Hrest)
      as [resps [Hlen [Hnth Hloop]]].
    exists (resp :: resps). split; [simpl; rewrite Hlen; reflexivity|]. split.
    + intros k r' Hk. destruct k as [|k]; simpl in Hk.
      * inversion Hk; subst. exists resp. rewrite Nat.add_0_r. split; auto.
      * destruct (Hnth k r' Hk) as [resp' [H1 H2]]. exists resp'.
        rewrite Nat.add_succ_r. split; assumption.
    + simpl. rewrite Hresp, Hloop, <- app_assoc. reflexivity.
Qed.

(** C5: a body that is an array of K request objects is answered by the array
    of their K responses, the k-th being the response to the k-th entry,
    dispatched k-th; the responses are broadcast one after the other in that
    order, each before the next entry is dispatched.  A body that is one
    request object is answered by its response alone. *)
Theorem command_batch_in_order (clock : nat -> string) (reqs : list value)
  (single : value) (st : server_state) :
  Forall (fun r => nullish r = false) reqs ->
  nullish single = false ->
  is_array single = false ->
  (exists resps,
      List.length resps = List.length reqs
      /\ (forall k r, nth_error reqs k = Some r ->
            exists resp, nth_error resps k = Some resp
                         /\ handleRpc (clock k) r = Returned resp)
      /\ post_command clock (VArr reqs) st
         = (fold_left (fun s resp => broadcast "rpc" (response_to_value resp) s)
                      resps st,
            Returned (VArr (map response_to_value resps))))
  /\ (exists resp,
        handleRpc (clock 0) single = Returned resp
        /\ post_command clock single st
           = (broadcast "rpc" (response_to_value resp) st,
              Returned (response_to_value resp))).
Proof.
  intros Hall Hs Ha. split.
  - destruct (command_loop_all clock reqs 0 [] st Hall)
      as [resps [Hlen [Hnth Hloop]]].
    exists resps. split; [exact Hlen|]. split; [exact Hnth|].
    unfold post_command. rewrite Hloop. reflexivity.
  - destruct (server_handleRpc_returns (clock 0) single Hs) as [resp [Hresp _]].
    exists resp. split; [exact Hresp|].
    unfold post_command.
    assert (E : match single with VArr items => items | _ => [single] end
                = [single]).
    { destruct single; try reflexivity. discriminate Ha. }
    rewrite E. simpl. rewrite Hresp, Ha. reflexivity.
Qed.

End SseClaims.

(* ================================================================== *)
(** * The stdio transport *)
(* ================================================================== *)

Section StdioText.

Import Tavily.

Lemma length_append (a b : string) :
  String.length (a ++ b) = String.length a + String.length b.
Proof. induction a as [|c a IH]; simpl; [reflexivity | rewrite IH; reflexivity]. Qed.

Lemma substring_all (s : string) : substring 0 (String.length s) s = s.
Proof. induction s as [|c s IH]; simpl; [reflexivity | rewrite IH; reflexivity]. Qed.

Lemma index_of_newline_app (raw rest : string) :
  index_of_newline raw = None ->
  index_of_newline (raw ++ String newline rest) = Some (String.length raw).
Proof.
  induction raw as [|c raw IH]; cbn [index_of_newline append]; intros H.
  - rewrite Ascii.eqb_refl. reflexivity.
  - destruct (Ascii.eqb c newline); [discriminate H|].
    destruct (index_of_newline raw); [discriminate H|].
    rewrite (IH eq_refl). reflexivity.
Qed.

Lemma slice_to_app (raw rest : string) :
  slice_to (String.length raw) (raw ++ rest) = raw.
Proof.
  unfold slice_to. induction raw as [|c raw IH]; simpl.
  - destruct rest; reflexivity.
  - rewrite IH. reflexivity.
Qed.

Lemma slice_from_app (raw rest : string) (c : ascii) :
  slice_from (S (String.length raw)) (raw ++ String c rest) = rest.
Proof.
  unfold slice_from. rewrite length_append. simpl String.length.
  replace (String.length raw + S (String.length rest) - S (String.length raw))
    with (String.length rest) by lia.
  induction raw as [|x raw IH]; simpl.
  - apply substring_all.
  - exact IH.
Qed.

End StdioText.

Section StdioClaims.
Context {host : JsHost}.
Variable apiKey : value.
Variable search : value -> outcome value.
Variable JSON_parse : string -> outcome value.

Import Tavily.

Local Abbreviation loop := (stdin_loop apiKey search JSON_parse).
Local Abbreviation line_body := (on_line apiKey search JSON_parse).

(** One turn of the [while] loop. *)
Lemma stdin_loop_unfold st o :
  index_of_newline (buffer st) = o ->
  loop st =
  match o with
  | Some idx =>
      loop (line_body (trim (slice_to idx (buffer st)))
                      (set_buffer (slice_from (S idx) (buffer st)) st))
  | None => st
  end.
Proof.
  intros Ho. rewrite stdin_loop_equation_1.
  remember (Tavily.inspect (index_of_newline (buffer st))) as i eqn:Hi. clear Hi.
  destruct i as [o' Ho'].
  assert (E : o = o') by (rewrite <- Ho, <- Ho'; reflexivity).
  clear Ho. subst o.
  destruct o'; reflexivity.
Qed.

(** The loop cuts the first line off the buffer, runs the body on it trimmed
    and goes on with what follows the line feed. *)
Lemma stdin_loop_first_line (raw rest : string) st :
  index_of_newline raw = None ->
  buffer st = raw ++ String newline rest ->
  loop st = loop (line_body (trim raw) (set_buffer rest st)).
Proof.
  intros Hraw Hbuf.
  rewrite (stdin_loop_unfold st (Some (String.length raw))).
  - rewrite Hbuf, slice_to_app, slice_from_app. reflexivity.
  - rewrite Hbuf. apply index_of_newline_app. exact Hraw.
Qed.

Lemma on_line_extends line st :
  exists more later,
    stdout (line_body line st) = (stdout st ++ more)%list
    /\ pending (line_body line st) = (pending st ++ later)%list.
Proof.
  unfold on_line. destruct (String.eqb line "").
  - exists [], []. rewrite !app_nil_r. split; reflexivity.
  - destruct (JSON_parse line) as [req|e]; simpl.
    + exists [], [handleRpc apiKey search req]. rewrite app_nil_r.
      split; reflexivity.
    + exists [response_to_value (parse_error e)], []. rewrite app_nil_r.
      split; reflexivity.
Qed.

(** The loop only appends, to the output and to the pending promises. *)
Lemma stdin_loop_extends (n : nat) : forall st,
  String.length (buffer st) < n ->
  exists more later,
    stdout (loop st) = (stdout st ++ more)%list
    /\ pending (loop st) = (pending st ++ later)%list.
Proof.
  induction n as [|n IH]; intros st Hn; [lia|].
  destruct (index_of_newline (buffer st)) as [idx|] eqn:E.
  - rewrite (stdin_loop_unfold st (Some idx) E).
    set (st1 := set_buffer (slice_from (S idx) (buffer st)) st).
    set (line := trim (slice_to idx (buffer st))).
    destruct (on_line_extends line st1) as [m1 [l1 [Hm1 Hl1]]].
    destruct (IH (line_body line st1)) as [m2 [l2 [Hm2 Hl2]]].
    + rewrite on_line_buffer. unfold st1. simpl.
      pose proof (slice_from_shorter (buffer st) idx E). lia.
    + exists (m1 ++ m2)%list, (l1 ++ l2)%list.
      rewrite Hm2, Hl2, Hm1, Hl1. unfold st1. simpl.
      rewrite !app_assoc. split; reflexivity.
  - rewrite (stdin_loop_unfold st None E).
    exists [], []. rewrite !app_nil_r. split; reflexivity.
Qed.

Lemma step_extends st e :
  exists more, stdout (step apiKey search JSON_parse st e) = (stdout st ++ more)%list.
Proof.
  destruct e as [chunk|k]; simpl.
  - unfold on_data.
    destruct (stdin_loop_extends (S (String.length (buffer st ++ chunk)))
                (set_buffer (buffer st ++ chunk) st)) as [more [_ [H _]]].
    + simpl. lia.
    + exists more. exact H.
  - unfold settle. destruct (nth_error (pending st) k) as [[resp|e]|]; simpl.
    + eexists. reflexivity.
    + exists []. rewrite app_nil_r. reflexivity.
    + exists []. rewrite app_nil_r. reflexivity.
Qed.

Lemma run_extends events : forall st,
  exists more, stdout (run apiKey search JSON_parse events st) = (stdout st ++ more)%list.
Proof.
  induction events as [|e events IH]; intros st.
  - exists []. simpl. rewrite app_nil_r. reflexivity.
  - change (run apiKey search JSON_parse (e :: events) st)
      with (run apiKey search JSON_parse events (step apiKey search JSON_parse st e)).
    destruct (IH (step apiKey search JSON_parse st e)) as [m2 H2].
    destruct (step_extends st e) as [m1 H1].
    exists (m1 ++ m2)%list. rewrite H2, H1, app_assoc. reflexivity.
Qed.

(** C6: when the loop of the [data] handler comes to a line that is not
    empty once trimmed and that [JSON.parse] rejects, it writes one line then
    and there, the Failure -32700 [Parse error] with [id: null] and the
    parser's message as [data], starts no dispatch for it, and goes on with
    the rest of the buffer: whatever the later lines write comes after the
    Failure.  So it is for the first line of a chunk that completes it. *)
Theorem parse_error_reported (st : stdio_state) (raw rest : string) (e : thrown) :
  buffer st = (raw ++ String newline rest)%string ->
  index_of_newline raw = None ->
  trim raw <> "" ->
  JSON_parse (trim raw) = Thrown e ->
  let failure :=
    VObj [("jsonrpc", VStr "2.0");
          ("id", VNull);
          ("error", VObj [("code", VNum (num_of_Z (-32700)));
                          ("message", VStr "Parse error");
                          ("data", thrown_message e)])] in
  let reported :=
    {| buffer := rest;
       stdout := stdout st ++ [failure];
       pending := pending st |} in
  loop st = loop reported
  /\ (exists more later,
        stdout (loop st) = (stdout st ++ [failure] ++ more)%list
        /\ pending (loop st) = (pending st ++ later)%list)
  /\ (forall st0 chunk,
        st = set_buffer (buffer st0 ++ chunk) st0 ->
        on_data apiKey search JSON_parse chunk st0 = loop reported).
Proof.
  intros Hbuf Hraw Hne Hparse failure reported.
  assert (E : loop st = loop reported).
  { rewrite (stdin_loop_first_line raw rest st Hraw Hbuf).
    f_equal. unfold on_line.
    destruct (String.eqb (trim raw) "") eqn:Eq.
    - apply String.eqb_eq in Eq. contradiction.
    - rewrite Hparse. reflexivity. }
  split; [exact E|]. split.
  - rewrite E.
    destruct (stdin_loop_extends (S (String.length rest)) reported)
      as [more [later [Hm Hl]]]; [simpl; lia|].
    exists more, later. rewrite Hm, Hl. simpl.
    rewrite <- app_assoc. split; reflexivity.
  - intros st0 chunk Hst. unfold on_data. rewrite <- Hst. exact E.
Qed.

(** C7: when the module is loaded the transport has written the readiness
    line, [{jsonrpc, id: null, result: {ready: true, tools: [names]}}], and
    nothing else, with no input read and no dispatch pending; it stays the
    first line of the output whatever chunks arrive and promises settle, and
    without input nothing is ever written after it. *)
Theorem ready_line_first (events : list event) :
  Tavily.init apiKey search
  = {| buffer := ""; stdout := [ready_line apiKey search]; pending := [] |}
  /\ ready_line apiKey search
     = VObj [("jsonrpc", VStr "2.0"); ("id", VNull);
             ("result", VObj [("ready", VBool true);
                              ("tools", VArr (map VStr (object_keys
                                                (TOOLS apiKey search))))])]
  /\ object_keys (TOOLS apiKey search) = ["tavily_search"]
  /\ (exists rest,
        stdout (run apiKey search JSON_parse events (Tavily.init apiKey search))
        = ready_line apiKey search :: rest)
  /\ (forall ks,
        run apiKey search JSON_parse (map Settle ks) (Tavily.init apiKey search)
        = Tavily.init apiKey search).
Proof.
  split; [reflexivity|]. split; [reflexivity|]. split; [reflexivity|]. split.
  - destruct (run_extends events (Tavily.init apiKey search)) as [more H].
    exists more. rewrite H. reflexivity.
  - induction ks as [|k ks IH]; [reflexivity|].
    simpl map.
    change (run apiKey search JSON_parse (Settle k :: map Settle ks)
              (Tavily.init apiKey search))
      with (run apiKey search JSON_parse (map Settle ks)
              (settle k (Tavily.init apiKey search))).
    replace (settle k (Tavily.init apiKey search)) with (Tavily.init apiKey search).
    + exact IH.
    + unfold settle. simpl. destruct k; reflexivity.
Qed.

End StdioClaims.

(* ================================================================== *)
(** * The theorems at sample inputs *)
(* ================================================================== *)

Lemma handleRpc_settles_on_objects_sample :
  (exists resp,
      Server.handleRpc SampleHost.clock
        (SampleHost.call (SampleHost.int 7) (VStr "sum") (VStr "x"))
      = Returned resp)
  /\ Server.handleRpc SampleHost.clock
       (SampleHost.call (SampleHost.int 7) (VStr "sum") (VStr "x"))
     = Returned (Failure (SampleHost.int 7) (-32000)
                   (VStr "Input must be array of numbers")
                   (Some (VStr "Error: Input must be array of numbers"))).
Proof.
  pose proof (handleRpc_settles_on_objects SampleHost.clock SampleHost.no_key
                SampleHost.no_search
                (SampleHost.call (SampleHost.int 7) (VStr "sum") (VStr "x"))
                eq_refl) as [H1 [_ [_ [_ [H5 _]]]]].
  split; [exact H1|].
  exact (H5 "sum" Server.sum _ eq_refl eq_refl eq_refl eq_refl).
Defined.

Lemma response_id_echoes_request_witness :
  exists rs rt,
    Server.handleRpc SampleHost.clock
      (SampleHost.request (VStr "a") "ping" VUndefined) = Returned rs
    /\ Tavily.handleRpc SampleHost.no_key SampleHost.no_search
         (SampleHost.request (VStr "a") "ping" VUndefined) = Returned rt
    /\ response_id rs = VStr "a" /\ response_id rt = VStr "a".
Proof.
  destruct (response_id_echoes_request SampleHost.clock SampleHost.no_key
              SampleHost.no_search
              (SampleHost.request (VStr "a") "ping" VUndefined) eq_refl)
    as [rs [rt [Hs [Ht [Hid _]]]]].
  exists rs, rt. split; [exact Hs|]. split; [exact Ht|]. exact (Hid eq_refl).
Defined.

Lemma listTools_public_listing_witness :
  exists ls lt,
    Server.handleRpc SampleHost.clock
      (SampleHost.request (SampleHost.int 3) "listTools" VUndefined)
    = Returned (Success (SampleHost.int 3) (VArr ls))
    /\ Tavily.handleRpc SampleHost.no_key SampleHost.no_search
         (SampleHost.request (SampleHost.int 3) "listTools" VUndefined)
       = Returned (Success (SampleHost.int 3) (VArr lt))
    /\ List.length ls = 3 /\ List.length lt = 1.
Proof.
  destruct (listTools_public_listing SampleHost.clock "2025-06-01T12:00:00.000Z"
              SampleHost.no_key SampleHost.no_search
              (SampleHost.request (SampleHost.int 3) "listTools" VUndefined)
              (SampleHost.request VNull "listTools" (VObj []))
              eq_refl eq_refl)
    as [ls [lt [Hs [Ht [Hls [Hlt _]]]]]].
  exists ls, lt. split; [exact Hs|]. split; [exact Ht|].
  split; [exact Hls | exact Hlt].
Defined.

Lemma sum_tool_total_witness :
  Server.handleRpc SampleHost.clock
    (SampleHost.call (SampleHost.int 2) (VStr "sum")
       (VArr [SampleHost.int 1; SampleHost.int 2; SampleHost.int 3]))
  = Returned (Success (SampleHost.int 2) (VObj [("total", SampleHost.int 6)])).
Proof.
  exact (proj1 (sum_tool_total SampleHost.clock
                  (SampleHost.call (SampleHost.int 2) (VStr "sum")
                     (VArr [SampleHost.int 1; SampleHost.int 2; SampleHost.int 3]))
                  eq_refl eq_refl)
               [SampleHost.int 1; SampleHost.int 2; SampleHost.int 3]
               eq_refl eq_refl).
Defined.

(** An array input on which [sum] answers no total: the element is an object
    with an own [toString], which [Number] cannot convert. *)
Lemma sum_array_without_total :
  Server.handleRpc SampleHost.clock
    (SampleHost.call (SampleHost.int 2) (VStr "sum")
       (VArr [VObj [("toString", SampleHost.int 1)]]))
  = Returned (Failure (SampleHost.int 2) (-32000)
                (VStr "Cannot convert object to primitive value")
                (Some (VStr "TypeError: Cannot convert object to primitive value")))
  /\ ~ (exists total,
          Server.handleRpc SampleHost.clock
            (SampleHost.call (SampleHost.int 2) (VStr "sum")
               (VArr [VObj [("toString", SampleHost.int 1)]]))
          = Returned (Success (SampleHost.int 2) (VObj [("total", total)]))).
Proof.
  split; [reflexivity|]. intros [total H]. discriminate H.
Qed.

Lemma broadcast_sequence_increases_witness :
  Server.ids_of (Server.wire (Server.run (SampleHost.session (Some "41")) Server.init))
  = [1; 2; 3; 3; 4; 4; 5; 5; 6]%Z
  /\ StronglySorted Z.le
       (Server.ids_of (Server.wire
                  (Server.run (SampleHost.session (Some "41")) Server.init)))
  /\ StronglySorted Z.lt
       (ids_seen_by 1
          (Server.wire (Server.run (SampleHost.session (Some "41")) Server.init))).
Proof.
  assert (Hnd : NoDup (accepted (SampleHost.session (Some "41")))).
  { simpl. constructor.
    - intros [H|[]]. discriminate H.
    - constructor; [intros []|constructor]. }
  assert (Hlt : (Server.globalEventSeq
                   (Server.run (SampleHost.session (Some "41")) Server.init)
                 < 2 ^ 53)%Z) by reflexivity.
  destruct (broadcast_sequence_increases _ Hnd Hlt) as [_ [_ [_ [_ [Hs Hr]]]]].
  split; [reflexivity|]. split; [exact Hs | exact (Hr 1)].
Defined.

Lemma resume_marker_never_used_witness :
  Server.run (SampleHost.session None) Server.init
  = Server.run (SampleHost.session (Some "41")) Server.init.
Proof.
  apply (resume_marker_never_used (SampleHost.session None)
           (SampleHost.session (Some "41")) Server.init).
  unfold SampleHost.session.
  repeat (apply Forall2_cons; [first [apply sbh_same | apply sbh_accept]|]).
  apply Forall2_nil.
Defined.

Lemma command_batch_in_order_witness :
  exists resps,
    List.length resps = 2
    /\ fst (Server.post_command (fun _ => SampleHost.clock)
              (VArr SampleHost.batch) Server.init)
       = fold_left (fun s resp => Server.broadcast "rpc" (response_to_value resp) s)
                   resps Server.init
    /\ snd (Server.post_command (fun _ => SampleHost.clock)
              (VArr SampleHost.batch) Server.init)
       = Returned (VArr (map response_to_value resps)).
Proof.
  assert (Hall : Forall (fun r => nullish r = false) SampleHost.batch).
  { repeat (apply Forall_cons; [reflexivity|]). apply Forall_nil. }
  destruct (command_batch_in_order (fun _ => SampleHost.clock) SampleHost.batch
              (SampleHost.request VNull "ping" VUndefined) Server.init
              Hall eq_refl eq_refl)
    as [[resps [Hlen [_ Hpost]]] _].
  exists resps. split; [exact Hlen|]. rewrite Hpost. split; reflexivity.
Defined.

Lemma parse_error_reported_witness :
  exists more,
    Tavily.stdout
      (Tavily.on_data SampleHost.no_key SampleHost.no_search SampleHost.parse
         ("not-json" ++ String Tavily.newline ("[]" ++ String Tavily.newline ""))
         (Tavily.init SampleHost.no_key SampleHost.no_search))
    = (Tavily.stdout (Tavily.init SampleHost.no_key SampleHost.no_search)
       ++ [VObj [("jsonrpc", VStr "2.0");
                 ("id", VNull);
                 ("error",
                  VObj [("code", SampleHost.int (-32700));
                        ("message", VStr "Parse error");
                        ("data", VStr "Unexpected token o in JSON at position 1")])]]
       ++ more)%list.
Proof.
  assert (Hne : Tavily.trim "not-json" <> "") by discriminate.
  destruct (parse_error_reported SampleHost.no_key SampleHost.no_search
              SampleHost.parse
              (Tavily.set_buffer
                 ("not-json" ++ String Tavily.newline
                                  ("[]" ++ String Tavily.newline ""))
                 (Tavily.init SampleHost.no_key SampleHost.no_search))
              "not-json" ("[]" ++ String Tavily.newline "")
              {| thrown_message := VStr "Unexpected token o in JSON at position 1";
                 thrown_stack := VStr "SyntaxError" |}
              eq_refl eq_refl Hne eq_refl)
    as [_ [[more [later [Hm _]]] _]].
  exists more. exact Hm.
Defined.

(* ================================================================== *)
(** * Further properties of the dispatcher *)
(* ================================================================== *)

Ltac case_branches :=
  repeat (cbv beta iota;
          match goal with
          | |- context [if ?b then _ else _] => destruct b
          | |- context [match lookup ?r ?k with _ => _ end] => destruct (lookup r k)
          | |- context [match run ?t ?i with _ => _ end] => destruct (run t i)
          end).

Section DispatcherShape.
Context {host : JsHost}.
Variable clock : string.
Variable apiKey : value.
Variable search : value -> outcome value.

(** What the [try] block of server.ts returns without throwing. *)
Lemma server_dispatch_shape req resp :
  Server.dispatch clock req = Returned resp ->
  (exists result, resp = Success (reply_id req) result
                  /\ known_method (get req "method") = true)
  \/ (exists msg, resp = Failure (reply_id req) (-32601) msg None
                  /\ known_method (get req "method") = false).
Proof.
  unfold Server.dispatch, known_method. fold (reply_id req).
  destruct (strict_eq_str (get req "method") "ping") eqn:E1.
  { intros H. inversion H. left. eexists. split; reflexivity. }
  destruct (strict_eq_str (get req "method") "listTools") eqn:E2.
  { intros H. inversion H. left. eexists. split; reflexivity. }
  destruct (strict_eq_str (get req "method") "callTool") eqn:E3.
  - unfold Server.tool_not_found, bind, to_string.
    case_branches; cbv beta iota; intros H; try discriminate H;
      inversion H; left; eexists; split; reflexivity.
  - unfold bind, to_string.
    destruct (convertible (get req "method")); intros H; [|discriminate H].
    inversion H. right. eexists. split; reflexivity.
Qed.

Lemma tavily_dispatch_shape req resp :
  Tavily.dispatch apiKey search req = Returned resp ->
  (exists result, resp = Success (reply_id req) result
                  /\ known_method (get req "method") = true)
  \/ (exists msg, resp = Failure (reply_id req) (-32601) msg None
                  /\ known_method (get req "method") = false).
Proof.
  unfold Tavily.dispatch, known_method. fold (reply_id req).
  destruct (strict_eq_str (get req "method") "ping") eqn:E1.
  { intros H. inversion H. left. eexists. split; reflexivity. }
  destruct (strict_eq_str (get req "method") "listTools") eqn:E2.
  { intros H. inversion H. left. eexists. split; reflexivity. }
  destruct (strict_eq_str (get req "method") "callTool") eqn:E3.
  - unfold Tavily.tool_not_found, bind, to_string.
    destruct (get (js_or (get req "params") (VObj [])) "name");
      case_branches; cbv beta iota; intros H; try discriminate H;
      inversion H; left; eexists; split; reflexivity.
  - unfold bind, to_string.
    destruct (convertible (get req "method")); intros H; [|discriminate H].
    inversion H. right. eexists. split; reflexivity.
Qed.

Lemma shape_classified req resp :
  version_ok req = true ->
  (exists result, resp = Success (reply_id req) result
                  /\ known_method (get req "method") = true)
  \/ (exists msg, resp = Failure (reply_id req) (-32601) msg None
                  /\ known_method (get req "method") = false) ->
  classified req resp.
Proof.
  intros Hv [[result [-> Hk]]|[msg [-> Hk]]]; simpl.
  - repeat split; assumption.
  - split; [reflexivity|]. right. left. repeat split; assumption.
Qed.

End DispatcherShape.

Section DispatcherFurther.
Context {host : JsHost}.

(** A method that is none of [ping], [listTools], [callTool] - absent or not
    a string included - is answered with the Failure -32601
    [Method not found: <method>], the method printed by [ToString]; when the
    method is an object [ToString] cannot convert, the template throws and the
    answer is the Failure -32000 of that [TypeError]. *)
Theorem unknown_method_reported (clock : string) (apiKey : value)
  (search : value -> outcome value) (req : value) :
  version_ok req = true ->
  known_method (get req "method") = false ->
  let answer :=
    if convertible (get req "method")
    then Failure (reply_id req) (-32601)
           (VStr ("Method not found: " ++ string_of (get req "method"))) None
    else Failure (reply_id req) (-32000) (VStr cannot_convert)
           (Some (VStr (error_stack "TypeError" cannot_convert))) in
  Server.handleRpc clock req = Returned answer
  /\ Tavily.handleRpc apiKey search req = Returned answer.
Proof.
  intros Hv Hk answer. subst answer.
  pose proof (version_ok_not_nullish req Hv) as Hn.
  rewrite (server_handleRpc_unfold clock req Hn).
  rewrite (tavily_handleRpc_unfold apiKey search req Hn).
  rewrite Hv. unfold Server.dispatch, Tavily.dispatch. fold (reply_id req).
  unfold known_method in Hk.
  apply orb_false_iff in Hk as [Hk H3]. apply orb_false_iff in Hk as [H1 H2].
  rewrite H1, H2, H3. unfold bind, to_string.
  destruct (convertible (get req "method")); split; reflexivity.
Qed.

(** Every request object gets, from either file, a response that carries its
    id and is one of: a Success, for a known method of a request with the
    right version; the Failure -32600, exactly when the version is wrong; the
    Failure -32601, for an unknown method; the Failure -32000, the only one
    with [data].  The dispatcher produces no other code. *)
Theorem response_codes_partition (clock : string) (apiKey : value)
  (search : value -> outcome value) (req : value) :
  nullish req = false ->
  (exists resp, Server.handleRpc clock req = Returned resp /\ classified req resp)
  /\ (exists resp, Tavily.handleRpc apiKey search req = Returned resp
                   /\ classified req resp).
Proof.
  intros Hn.
  rewrite (server_handleRpc_unfold clock req Hn).
  rewrite (tavily_handleRpc_unfold apiKey search req Hn).
  destruct (version_ok req) eqn:Hv.
  - split.
    + destruct (Server.dispatch clock req) as [resp|e] eqn:D.
      * exists resp. split; [reflexivity|].
        exact (shape_classified req resp Hv (server_dispatch_shape clock req resp D)).
      * eexists. split; [reflexivity|]. simpl. split; [reflexivity|].
        right. right. repeat split; [exact Hv | discriminate].
    + destruct (Tavily.dispatch apiKey search req) as [resp|e] eqn:D.
      * exists resp. split; [reflexivity|].
        exact (shape_classified req resp Hv
                 (tavily_dispatch_shape apiKey search req resp D)).
      * eexists. split; [reflexivity|]. simpl. split; [reflexivity|].
        right. right. repeat split; [exact Hv | discriminate].
  - split; eexists; (split; [reflexivity|]); simpl; (split; [reflexivity|]);
      left; repeat split; exact Hv.
Qed.


(** [callTool] without a tool name - no [params], falsy [params], or
    [params] without [name] - is answered by either file with the Failure
    -32000 [Tool not found: undefined]. *)
Theorem missing_tool_name_not_found (clock : string) (apiKey : value)
  (search : value -> outcome value) (req : value) :
  is_call req = true ->
  get (call_params req) "name" = VUndefined ->
  Server.handleRpc clock req
  = Returned (Failure (reply_id req) (-32000)
                (VStr "Tool not found: undefined")
                (Some (VStr (error_stack "Error" "Tool not found: undefined"))))
  /\ Tavily.handleRpc apiKey search req
     = Returned (Failure (reply_id req) (-32000)
                   (VStr "Tool not found: undefined")
                   (Some (VStr (error_stack "Error" "Tool not found: undefined")))).
Proof.
  intros Hc Hname. split.
  - rewrite (server_callTool_not_found clock req Hc).
    + rewrite Hname. reflexivity.
    + rewrite Hname. reflexivity.
    + left. rewrite Hname. reflexivity.
  - rewrite (tavily_callTool_not_found apiKey search req Hc).
    + rewrite Hname. reflexivity.
    + rewrite Hname. reflexivity.
    + left. rewrite Hname. reflexivity.
Qed.

(** The [echo] tool hands its input back unchanged under the key [echo],
    whatever the input is, absent included; the [now] tool answers the time
    it reads and ignores its input.  Neither ever fails. *)
Theorem echo_and_now_succeed (clock : string) (req : value) :
  is_call req = true ->
  (get (call_params req) "name" = VStr "echo" ->
   Server.handleRpc clock req
   = Returned (Success (reply_id req)
                 (VObj [("echo", get (call_params req) "input")])))
  /\ (get (call_params req) "name" = VStr "now" ->
      Server.handleRpc clock req
      = Returned (Success (reply_id req) (VObj [("now", VStr clock)]))).
Proof.
  intros Hc. split; intros Hname.
  - rewrite (server_callTool_own clock req "echo" Server.echo Hc Hname eq_refl).
    reflexivity.
  - rewrite (server_callTool_own clock req "now" (Server.now clock) Hc Hname eq_refl).
    reflexivity.
Qed.

(** [callTool] of [tavily_search] without an API key is answered with the
    Failure -32000 that names the missing key, whatever the input, and the
    network is not touched: the answer is the same for every behaviour of the
    search.  With a key, the search receives [input || {}] and what it
    settles to is wrapped as a Success or as the Failure -32000. *)
Theorem tavily_search_needs_key (apiKey : value)
  (search : value -> outcome value) (req : value) :
  is_call req = true ->
  get (call_params req) "name" = VStr "tavily_search" ->
  Tavily.handleRpc apiKey search req
  = (if truthy apiKey
     then match search (js_or (get (call_params req) "input") (VObj [])) with
          | Returned result => Returned (Success (reply_id req) result)
          | Thrown e => Returned (internal_error (reply_id req) e)
          end
     else Returned (internal_error (reply_id req)
                      (Error "Tavily API key missing. 请在环境变量中设置 TAVILY_API_KEY")))
  /\ (truthy apiKey = false ->
      forall search',
        Tavily.handleRpc apiKey search' req = Tavily.handleRpc apiKey search req).
Proof.
  intros Hc Hname.
  assert (E : forall f,
             Tavily.handleRpc apiKey f req
             = if truthy apiKey
               then match f (js_or (get (call_params req) "input") (VObj [])) with
                    | Returned result => Returned (Success (reply_id req) result)
                    | Thrown e => Returned (internal_error (reply_id req) e)
                    end
               else Returned (internal_error (reply_id req)
                      (Error "Tavily API key missing. 请在环境变量中设置 TAVILY_API_KEY"))).
  { intros f.
    rewrite (tavily_callTool_own apiKey f req "tavily_search"
               (Tavily.tavily_search apiKey f) Hc Hname eq_refl).
    simpl run. destruct (truthy apiKey); reflexivity. }
  split; [apply E|].
  intros Hk search'. rewrite (E search'), (E search), Hk. reflexivity.
Qed.

End DispatcherFurther.

Lemma unknown_method_reported_witness :
  Tavily.handleRpc SampleHost.no_key SampleHost.no_search
    (SampleHost.request (VStr "b") "unknown" VUndefined)
  = Returned (Failure (VStr "b") (-32601) (VStr "Method not found: unknown") None).
Proof.
  exact (proj2 (unknown_method_reported SampleHost.clock SampleHost.no_key
                  SampleHost.no_search
                  (SampleHost.request (VStr "b") "unknown" VUndefined)
                  eq_refl eq_refl)).
Defined.

Lemma response_codes_partition_witness :
  exists resp,
    Server.handleRpc SampleHost.clock
      (SampleHost.call VNull (VStr "sum") (VStr "x")) = Returned resp
    /\ classified (SampleHost.call VNull (VStr "sum") (VStr "x")) resp.
Proof.
  exact (proj1 (response_codes_partition SampleHost.clock SampleHost.no_key
                  SampleHost.no_search
                  (SampleHost.call VNull (VStr "sum") (VStr "x")) eq_refl)).
Defined.


Lemma missing_tool_name_not_found_witness :
  Server.handleRpc SampleHost.clock
    (SampleHost.request (SampleHost.int 4) "callTool" VNull)
  = Returned (Failure (SampleHost.int 4) (-32000)
                (VStr "Tool not found: undefined")
                (Some (VStr "Error: Tool not found: undefined"))).
Proof.
  exact (proj1 (missing_tool_name_not_found SampleHost.clock SampleHost.no_key
                  SampleHost.no_search
                  (SampleHost.request (SampleHost.int 4) "callTool" VNull)
                  eq_refl eq_refl)).
Defined.

Lemma echo_and_now_succeed_witness :
  Server.handleRpc SampleHost.clock
    (SampleHost.call (SampleHost.int 8) (VStr "echo")
       (VObj [("toString", VNull)]))
  = Returned (Success (SampleHost.int 8)
                (VObj [("echo", VObj [("toString", VNull)])])).
Proof.
  exact (proj1 (echo_and_now_succeed SampleHost.clock
                  (SampleHost.call (SampleHost.int 8) (VStr "echo")
                     (VObj [("toString", VNull)]))
                  eq_refl) eq_refl).
Defined.

Lemma tavily_search_needs_key_witness :
  Tavily.handleRpc SampleHost.no_key (fun _ => Thrown (Error "network down"))
    (SampleHost.call (SampleHost.int 6) (VStr "tavily_search") VUndefined)
  = Tavily.handleRpc SampleHost.no_key SampleHost.no_search
      (SampleHost.call (SampleHost.int 6) (VStr "tavily_search") VUndefined).
Proof.
  exact (proj2 (tavily_search_needs_key SampleHost.no_key SampleHost.no_search
                  (SampleHost.call (SampleHost.int 6) (VStr "tavily_search")
                     VUndefined)
                  eq_refl eq_refl) eq_refl
               (fun _ => Thrown (Error "network down"))).
Defined.

(* ================================================================== *)
(** * Further properties of the connection registry *)
(* ================================================================== *)

Section RegistryLaws.
Context {host : JsHost}.

Import Server.

Lemma assoc_map_delete_same {A : Type} k (m : list (string * A)) :
  assoc k (map_delete k m) = None.
Proof.
  unfold map_delete. induction m as [|[k' a] m IH]; [reflexivity|].
  cbn [filter fst]. destruct (String.eqb k k') eqn:E; cbn [negb]; [exact IH|].
  cbn [assoc]. rewrite E. exact IH.
Qed.

Lemma assoc_map_delete_other {A : Type} k k' (m : list (string * A)) :
  k' <> k -> assoc k' (map_delete k m) = assoc k' m.
Proof.
  intros Hne. unfold map_delete. induction m as [|[k0 a] m IH]; [reflexivity|].
  cbn [filter fst assoc]. destruct (String.eqb k k0) eqn:E; cbn [negb].
  - apply String.eqb_eq in E. subst k0.
    destruct (String.eqb k' k) eqn:E'; [|exact IH].
    apply String.eqb_eq in E'. contradiction.
  - cbn [assoc]. rewrite IH. reflexivity.
Qed.

Lemma map_delete_absent {A : Type} k (m : list (string * A)) :
  assoc k m = None -> map_delete k m = m.
Proof.
  unfold map_delete. induction m as [|[k' a] m IH]; [reflexivity|].
  cbn [filter fst assoc]. destruct (String.eqb k k'); [discriminate|].
  intros H. cbn [negb]. rewrite (IH H). reflexivity.
Qed.

Lemma assoc_map_set_other {A : Type} k k' (a : A) (m : list (string * A)) :
  k' <> k -> assoc k' (map_set k a m) = assoc k' m.
Proof.
  intros Hne. induction m as [|[k0 a0] m IH]; cbn [map_set assoc].
  - destruct (String.eqb k' k) eqn:E; [|reflexivity].
    apply String.eqb_eq in E. contradiction.
  - destruct (String.eqb k k0) eqn:E; cbn [assoc].
    + apply String.eqb_eq in E. subst k0.
      destruct (String.eqb k' k) eqn:E'; [|reflexivity].
      apply String.eqb_eq in E'. contradiction.
    + rewrite IH. reflexivity.
Qed.

Lemma assoc_mark_key_other k k' n (m : list (string * ClientConn)) :
  k' <> k -> assoc k' (map (mark_key k n) m) = assoc k' m.
Proof.
  intros Hne. induction m as [|[k0 c] m IH]; [reflexivity|].
  cbn [map assoc]. unfold mark_key at 1. cbn [fst snd].
  destruct (String.eqb k k0) eqn:E; rewrite IH; [|reflexivity].
  apply String.eqb_eq in E. subst k0.
  destruct (String.eqb k' k) eqn:E'; [|reflexivity].
  apply String.eqb_eq in E'. contradiction.
Qed.

Lemma map_delete_mark_key k n (m : list (string * ClientConn)) :
  map_delete k (map (mark_key k n) m) = map_delete k m.
Proof.
  unfold map_delete. induction m as [|[k0 c] m IH]; [reflexivity|].
  cbn [map filter].
  assert (Hf : fst (mark_key k n (k0, c)) = k0).
  { unfold mark_key. cbn [fst]. destruct (String.eqb k k0); reflexivity. }
  rewrite Hf. cbn [fst]. destruct (String.eqb k k0) eqn:E; cbn [negb].
  - exact IH.
  - rewrite IH. f_equal. unfold mark_key. cbn [fst]. rewrite E. reflexivity.
Qed.

Lemma map_delete_map_set {A : Type} k (a : A) (m : list (string * A)) :
  map_delete k (map_set k a m) = map_delete k m.
Proof.
  unfold map_delete. induction m as [|[k0 a0] m IH]; cbn [map_set filter fst].
  - rewrite String.eqb_refl. reflexivity.
  - destruct (String.eqb k k0) eqn:E; cbn [filter fst negb].
    + rewrite String.eqb_refl. reflexivity.
    + rewrite E. cbn [negb]. rewrite IH. reflexivity.
Qed.

Lemma map_delete_twice {A : Type} k (m : list (string * A)) :
  map_delete k (map_delete k m) = map_delete k m.
Proof. apply map_delete_absent. apply assoc_map_delete_same. Qed.

(** The clients after the accept handler. *)
Lemma sse_accept_clients clientId socket h created serverTime st :
  clients (sse_accept clientId socket h created serverTime st)
  = map (mark_key clientId (num_of_Z (globalEventSeq st)))
        (map_set clientId
           {| id := clientId; res := socket; createdAt := created;
              lastEventId := header_number h |} (clients st)).
Proof. reflexivity. Qed.

Lemma received_app r st (w : list (nat * chunk)) st' :
  wire st' = (wire st ++ w)%list ->
  received r st'
  = (received r st ++ map snd (filter (fun e => Nat.eqb (fst e) r) w))%list.
Proof.
  intros H. unfold received. rewrite H, filter_app, map_app. reflexivity.
Qed.

(** The close handler removes the connection stored under the id and nothing
    else: the other connections, the counter and the wire are as before; a
    second close, or the close of an id that is not registered, changes
    nothing. *)
Theorem close_removes_one_connection (clientId : string) (st : server_state) :
  assoc clientId (clients (sse_close clientId st)) = None
  /\ (forall k, k <> clientId ->
        assoc k (clients (sse_close clientId st)) = assoc k (clients st))
  /\ globalEventSeq (sse_close clientId st) = globalEventSeq st
  /\ wire (sse_close clientId st) = wire st
  /\ sse_close clientId (sse_close clientId st) = sse_close clientId st
  /\ (assoc clientId (clients st) = None -> sse_close clientId st = st).
Proof.
  unfold sse_close. simpl. repeat split.
  - apply assoc_map_delete_same.
  - intros k Hk. apply assoc_map_delete_other. exact Hk.
  - rewrite map_delete_twice. reflexivity.
  - intros H. rewrite (map_delete_absent _ _ H). destruct st. reflexivity.
Qed.

(** The accept handler stores the new connection under its id, with the
    response object, the creation time and, as [lastEventId], the id of its
    welcome frame; the connections under other ids are untouched; only the
    new response object is written to, with the welcome frame; closing the
    id right after leaves the registry as closing it before would. *)
Theorem accept_registers_connection (clientId : string) (socket : nat)
  (h : option string) (created : Z) (serverTime : string) (st : server_state) :
  let st' := sse_accept clientId socket h created serverTime st in
  assoc clientId (clients st')
  = Some {| id := clientId; res := socket; createdAt := created;
            lastEventId := num_of_Z (globalEventSeq st) |}
  /\ (forall k, k <> clientId -> assoc k (clients st') = assoc k (clients st))
  /\ received socket st'
     = (received socket st
        ++ [IdLine (globalEventSeq st); EventLine "welcome";
            DataLine (VObj [("clientId", VStr clientId);
                            ("serverTime", VStr serverTime)])])%list
  /\ (forall r, r <> socket -> received r st' = received r st)
  /\ clients (sse_close clientId st') = clients (sse_close clientId st).
Proof.
  intros st'. subst st'.
  destruct (sse_accept_spec clientId socket h created serverTime st)
    as [_ [Hw _]].
  split; [|split; [|split; [|split]]].
  - rewrite sse_accept_clients.
    exact (assoc_set_lastEventId clientId _ _ _ (assoc_map_set clientId _ _)).
  - intros k Hk. rewrite sse_accept_clients.
    rewrite (assoc_mark_key_other clientId k _ _ Hk).
    apply assoc_map_set_other. exact Hk.
  - rewrite (received_app socket st _ _ Hw). unfold frame. cbn [filter fst].
    rewrite Nat.eqb_refl. reflexivity.
  - intros r Hr. rewrite (received_app r st _ _ Hw). unfold frame.
    cbn [filter fst].
    assert (E : Nat.eqb socket r = false).
    { apply Nat.eqb_neq. intros Heq. apply Hr. symmetry. exact Heq. }
    rewrite E. cbn [map]. apply app_nil_r.
  - unfold sse_close. cbn [clients]. rewrite sse_accept_clients.
    rewrite map_delete_mark_key. apply map_delete_map_set.
Qed.

End RegistryLaws.

Section BroadcastDelivery.
Context {host : JsHost}.

Import Server.

Lemma marked_twice n (c : ClientConn) : marked n (marked n c) = marked n c.
Proof. reflexivity. Qed.

Lemma write_frame_clients k c event data st :
  clients (write_frame k c event data st)
  = map (mark_key k (num_of_Z (globalEventSeq st))) (clients st).
Proof. reflexivity. Qed.

(** The loop of [broadcast] over a snapshot [l]: the entries stored under a
    key of [l] are marked. *)
Lemma frames_loop_clients event data l : forall st,
  clients (fold_left (fun s e => write_frame (fst e) (snd e) event data s) l st)
  = map (fun e => if existsb (fun k => String.eqb k (fst e)) (map fst l)
                  then (fst e, marked (num_of_Z (globalEventSeq st)) (snd e))
                  else e) (clients st).
Proof.
  induction l as [|x l IH]; intros st.
  - simpl. symmetry. apply map_id.
  - cbn [fold_left]. rewrite IH.
    destruct (write_frame_spec (fst x) (snd x) event data st) as [Hs _].
    rewrite Hs, write_frame_clients, map_map.
    apply map_ext. intros e. cbn [map existsb].
    unfold mark_key. destruct (String.eqb (fst x) (fst e)); cbn [fst snd orb].
    + destruct (existsb _ (map fst l)); reflexivity.
    + reflexivity.
Qed.

Lemma existsb_own_key (m : list (string * ClientConn)) e :
  In e m -> existsb (fun k => String.eqb k (fst e)) (map fst m) = true.
Proof.
  intros H. apply existsb_exists. exists (fst e). split.
  - apply in_map. exact H.
  - apply String.eqb_refl.
Qed.

Lemma frames_received_absent s event data r (l : list (string * ClientConn)) :
  ~ In r (map (fun e => res (snd e)) l) ->
  filter (fun e => Nat.eqb (fst e) r)
         (flat_map (fun e => frame (res (snd e)) s event data) l) = [].
Proof.
  induction l as [|e l IH]; intros H; [reflexivity|].
  cbn [flat_map]. rewrite filter_app, (IH (fun Hin => H (or_intror Hin))).
  unfold frame. cbn [filter fst].
  destruct (Nat.eqb (res (snd e)) r) eqn:E; [|reflexivity].
  apply Nat.eqb_eq in E. exfalso. apply H. left. exact E.
Qed.

Lemma frames_received_present s event data r (l : list (string * ClientConn)) :
  NoDup (map (fun e => res (snd e)) l) ->
  In r (map (fun e => res (snd e)) l) ->
  filter (fun e => Nat.eqb (fst e) r)
         (flat_map (fun e => frame (res (snd e)) s event data) l)
  = frame r s event data.
Proof.
  induction l as [|e l IH]; intros Hnd Hin; [destruct Hin|].
  cbn [map] in Hnd, Hin. apply NoDup_cons_iff in Hnd. destruct Hnd as [Hfresh Hnd].
  cbn [flat_map]. rewrite filter_app. unfold frame at 1. cbn [filter fst].
  destruct (Nat.eqb (res (snd e)) r) eqn:E.
  - apply Nat.eqb_eq in E. subst r.
    rewrite (frames_received_absent s event data _ l Hfresh). reflexivity.
  - destruct Hin as [Heq|Hin].
    + apply Nat.eqb_neq in E. contradiction.
    + exact (IH Hnd Hin).
Qed.

(** [broadcast] sets the [lastEventId] of every registered connection to the
    id it stamps, and changes nothing else in the registry: same keys in the
    same order, same response objects, same creation times. *)
Theorem broadcast_marks_every_connection (event : string) (data : value)
  (st : server_state) :
  clients (broadcast event data st)
  = map (fun e => (fst e, marked (num_of_Z (globalEventSeq st)) (snd e)))
        (clients st)
  /\ keys (broadcast event data st) = keys st.
Proof.
  assert (E : clients (broadcast event data st)
              = map (fun e => (fst e, marked (num_of_Z (globalEventSeq st)) (snd e)))
                    (clients st)).
  { unfold broadcast. cbn [clients]. rewrite frames_loop_clients.
    apply map_ext_in. intros e He. rewrite (existsb_own_key _ e He). reflexivity. }
  split; [exact E|].
  unfold keys. rewrite E, map_map. reflexivity.
Qed.

(** With every connection on its own response object, [broadcast] sends each
    registered connection exactly one frame - the id line with the value of
    the counter, the event line, the data line - and sends nothing to a
    response object that is not registered. *)
Theorem broadcast_delivers_one_frame (event : string) (data : value)
  (st : server_state) (r : nat) :
  NoDup (sockets st) ->
  received r (broadcast event data st)
  = if existsb (Nat.eqb r) (sockets st)
    then (received r st
          ++ [IdLine (globalEventSeq st); EventLine event; DataLine data])%list
    else received r st.
Proof.
  intros Hnd.
  destruct (broadcast_spec event data st) as [_ [Hw _]].
  rewrite (received_app r st _ _ Hw).
  destruct (existsb (Nat.eqb r) (sockets st)) eqn:E.
  - apply existsb_exists in E. destruct E as [x [Hx Heq]].
    apply Nat.eqb_eq in Heq. subst x.
    rewrite (frames_received_present _ event data r (clients st) Hnd Hx).
    reflexivity.
  - rewrite frames_received_absent; [apply app_nil_r|].
    intros Hin. assert (Ht : existsb (Nat.eqb r) (sockets st) = true).
    { apply existsb_exists. exists r. split; [exact Hin | apply Nat.eqb_refl]. }
    rewrite Ht in E. discriminate E.
Qed.

End BroadcastDelivery.

Section AfterClose.
Context {host : JsHost}.

Import Server.

(** Two entries of the registry on the same response object are one entry. *)
Lemma same_socket_same_entry (m : list (string * ClientConn)) e1 e2 :
  NoDup (map (fun e => res (snd e)) m) ->
  In e1 m -> In e2 m -> res (snd e1) = res (snd e2) -> e1 = e2.
Proof.
  induction m as [|x m IH]; intros Hnd H1 H2 Heq; [destruct H1|].
  cbn [map] in Hnd. apply NoDup_cons_iff in Hnd. destruct Hnd as [Hfresh Hnd].
  destruct H1 as [<-|H1], H2 as [<-|H2].
  - reflexivity.
  - exfalso. apply Hfresh. rewrite Heq.
    apply (in_map (fun e => res (snd e))). exact H2.
  - exfalso. apply Hfresh. rewrite <- Heq.
    apply (in_map (fun e => res (snd e))). exact H1.
  - exact (IH Hnd H1 H2 Heq).
Qed.

Lemma close_drops_socket k c st :
  NoDup (sockets st) -> In (k, c) (clients st) ->
  ~ In (res c) (sockets (sse_close k st)).
Proof.
  intros Hnd Hin Hr. unfold sockets, sse_close, map_delete in Hr. cbn [clients] in Hr.
  apply in_map_iff in Hr. destruct Hr as [e [Hres He]].
  apply filter_In in He. destruct He as [He Hk].
  assert (E : e = (k, c)) by exact (same_socket_same_entry _ e (k, c) Hnd He Hin Hres).
  subst e. cbn [fst] in Hk. rewrite String.eqb_refl in Hk. discriminate Hk.
Qed.

Lemma emits_received_absent r l : forall st,
  ~ In r (sockets st) -> received r (emits l st) = received r st.
Proof.
  induction l as [|d l IH]; intros st Hr; [reflexivity|].
  rewrite emits_cons.
  destruct (broadcast_spec (fst d) (snd d) st) as [_ [Hw Hk]].
  rewrite IH; [|rewrite Hk; exact Hr].
  rewrite (received_app r st _ _ Hw).
  rewrite frames_received_absent; [apply app_nil_r | exact Hr].
Qed.

Lemma step_received_absent r st a :
  ~ In r (sockets st) -> ~ In r (accepted [a]) ->
  received r (step st a) = received r st.
Proof.
  intros Hr Ha.
  destruct (step_cases st a) as [H|[H|[_ [l H]]]].
  - destruct H as [c [s [h [cr [t ->]]]]]. unfold step.
    destruct (sse_accept_spec c s h cr t st) as [_ [Hw _]].
    rewrite (received_app r st _ _ Hw). unfold frame. cbn [filter fst].
    destruct (Nat.eqb s r) eqn:E; [|apply app_nil_r].
    apply Nat.eqb_eq in E. exfalso. apply Ha. left. exact E.
  - destruct H as [c ->]. reflexivity.
  - rewrite H. apply emits_received_absent. exact Hr.
Qed.

Lemma run_received_absent r acts : forall st,
  ~ In r (sockets st) -> ~ In r (accepted acts) ->
  received r (run acts st) = received r st
  /\ ~ In r (sockets (run acts st)).
Proof.
  induction acts as [|a acts IH]; intros st Hr Ha; [split; [reflexivity | exact Hr]|].
  rewrite accepted_cons in Ha.
  change (run (a :: acts) st) with (run acts (step st a)).
  assert (Ha1 : ~ In r (accepted [a])) by (intros H; apply Ha, in_or_app; left; exact H).
  assert (Ha2 : ~ In r (accepted acts)) by (intros H; apply Ha, in_or_app; right; exact H).
  destruct (IH (step st a)) as [Hrec Hsock].
  - intros Hin. apply step_sockets in Hin. apply in_app_or in Hin. tauto.
  - exact Ha2.
  - split; [|exact Hsock]. rewrite Hrec. apply step_received_absent; assumption.
Qed.

(** Once the close handler has removed a connection, nothing is written to
    its response object any more, whatever handlers run afterwards - ticks,
    commands, other connections coming and going - as long as that response
    object is not handed to a new connection. *)
Theorem closed_connection_gets_nothing (st : server_state) (k : string)
  (c : ClientConn) (acts : list action) :
  NoDup (sockets st) ->
  In (k, c) (clients st) ->
  ~ In (res c) (accepted acts) ->
  received (res c) (run acts (sse_close k st)) = received (res c) st
  /\ ~ In (res c) (sockets (run acts (sse_close k st))).
Proof.
  intros Hnd Hin Hacc.
  destruct (run_received_absent (res c) acts (sse_close k st)
              (close_drops_socket k c st Hnd Hin) Hacc) as [Hrec Hsock].
  split; [|exact Hsock]. rewrite Hrec. reflexivity.
Qed.

End AfterClose.

Section Counter.
Context {host : JsHost}.

Import Server.

Lemma js_incr_min n :
  (n <= 2 ^ 53)%Z -> js_incr n = Z.min (2 ^ 53) (n + 1).
Proof.
  intros H. unfold js_incr. destruct (n <? 2 ^ 53)%Z eqn:E.
  - apply Z.ltb_lt in E. lia.
  - apply Z.ltb_ge in E. lia.
Qed.

Lemma emits_seq_min l : forall st,
  (globalEventSeq st <= 2 ^ 53)%Z ->
  globalEventSeq (emits l st)
  = Z.min (2 ^ 53) (globalEventSeq st + Z.of_nat (List.length l)).
Proof.
  induction l as [|d l IH]; intros st Hle.
  - simpl. lia.
  - rewrite emits_cons.
    destruct (broadcast_spec (fst d) (snd d) st) as [Hs _].
    rewrite IH; rewrite Hs, (js_incr_min _ Hle); cbn [List.length]; lia.
Qed.

(** The loop of the command handler broadcasts one response per entry
    served. *)
Lemma command_loop_served clock reqs : forall i acc st,
  exists sent,
    fst (command_loop clock i reqs acc st)
    = emits (map (fun d => ("rpc", d)) sent) st
    /\ List.length sent = served reqs.
Proof.
  induction reqs as [|r reqs IH]; intros i acc st.
  - exists []. split; reflexivity.
  - cbn [command_loop served]. destruct (nullish r) eqn:Hn.
    + unfold handleRpc. rewrite Hn. exists []. split; reflexivity.
    + destruct (server_handleRpc_returns (clock i) r Hn) as [resp [Hresp _]].
      rewrite Hresp.
      destruct (IH (S i) (acc ++ [resp])%list
                   (broadcast "rpc" (response_to_value resp) st))
        as [sent [Hs Hl]].
      exists (response_to_value resp :: sent). split.
      * rewrite Hs. reflexivity.
      * cbn [List.length]. rewrite Hl. reflexivity.
Qed.

Lemma step_seq_min st a :
  (globalEventSeq st <= 2 ^ 53)%Z ->
  globalEventSeq (step st a)
  = Z.min (2 ^ 53) (globalEventSeq st + Z.of_nat (events_of a)).
Proof.
  intros Hle.
  destruct a as [clientId socket h created serverTime|clientId|ts|clock body];
    cbn [step events_of].
  - destruct (sse_accept_spec clientId socket h created serverTime st) as [Hs _].
    rewrite Hs, (js_incr_min _ Hle). lia.
  - simpl. lia.
  - unfold tick. destruct (broadcast_spec "tick" (VObj [("ts", VNum (num_of_Z ts))]) st)
      as [Hs _].
    rewrite Hs, (js_incr_min _ Hle). lia.
  - rewrite post_command_state.
    destruct (command_loop_served clock (requests_of body) 0 [] st)
      as [sent [Hs Hl]].
    unfold requests_of in Hs. rewrite Hs, (emits_seq_min _ st Hle).
    rewrite length_map, Hl. reflexivity.
Qed.

Lemma run_seq_min acts : forall st,
  (globalEventSeq st <= 2 ^ 53)%Z ->
  globalEventSeq (run acts st)
  = Z.min (2 ^ 53) (globalEventSeq st + Z.of_nat (events acts)).
Proof.
  induction acts as [|a acts IH]; intros st Hle.
  - simpl. lia.
  - change (run (a :: acts) st) with (run acts (step st a)).
    pose proof (step_seq_min st a Hle) as Hs.
    rewrite IH; [|lia]. rewrite Hs. cbn [events fold_right].
    fold (events acts). lia.
Qed.

(** The counter after a run is one more than the number of events emitted -
    one per accepted connection, per tick and per command entry served -
    capped at 2^53: it never decreases, and neither a close nor the number
    of recipients moves it. *)
Theorem counter_counts_events (acts : list action) :
  globalEventSeq (run acts init)
  = Z.min (2 ^ 53) (1 + Z.of_nat (events acts))
  /\ (forall more,
        (globalEventSeq (run acts init)
         <= globalEventSeq (run (acts ++ more) init))%Z).
Proof.
  split.
  - apply (run_seq_min acts init). simpl. lia.
  - intros more. unfold run. rewrite fold_left_app.
    apply (run_seq_le more).
Qed.

End Counter.

Section RegistryInvariant.
Context {host : JsHost}.

Import Server.

Lemma last_id_snoc l i : last_id (l ++ [i]) = Some i.
Proof. unfold last_id. rewrite rev_unit. reflexivity. Qed.

Lemma broadcast_clients event data st :
  clients (broadcast event data st)
  = map (fun e => (fst e, marked (num_of_Z (globalEventSeq st)) (snd e)))
        (clients st).
Proof.
  unfold broadcast. cbn [clients]. rewrite frames_loop_clients.
  apply map_ext_in. intros e He. rewrite (existsb_own_key _ e He). reflexivity.
Qed.

Lemma seen_frame_present s event data r (l : list (string * ClientConn)) :
  NoDup (map (fun e => res (snd e)) l) ->
  In r (map (fun e => res (snd e)) l) ->
  ids_seen_by r (flat_map (fun e => frame (res (snd e)) s event data) l) = [s].
Proof.
  intros Hnd Hin. unfold ids_seen_by.
  rewrite (frames_received_present s event data r l Hnd Hin). reflexivity.
Qed.

Lemma registered_init : registered init.
Proof. split; simpl; constructor. Qed.

Lemma registered_broadcast event data st :
  registered st -> registered (broadcast event data st).
Proof.
  intros [Hk Hr Hid Hm].
  destruct (broadcast_spec event data st) as [_ [Hw Hs]].
  split.
  - unfold keys. rewrite broadcast_clients, map_map. exact Hk.
  - rewrite Hs. exact Hr.
  - rewrite broadcast_clients. apply Forall_map.
    revert Hid. apply Forall_impl. intros e He. exact He.
  - rewrite broadcast_clients. apply Forall_map.
    apply Forall_forall. intros e He. cbn [snd marked res lastEventId].
    exists (globalEventSeq st). split; [|reflexivity].
    rewrite Hw, ids_seen_by_app.
    rewrite (seen_frame_present _ event data (res (snd e)) (clients st) Hr).
    + apply last_id_snoc.
    + apply (in_map (fun e => res (snd e))). exact He.
Qed.

Lemma registered_emits l : forall st, registered st -> registered (emits l st).
Proof.
  induction l as [|d l IH]; intros st H; [exact H|].
  rewrite emits_cons. apply IH. apply registered_broadcast. exact H.
Qed.

Lemma map_set_keys {A : Type} k (a : A) (m : list (string * A)) x :
  In x (map fst (map_set k a m)) -> x = k \/ In x (map fst m).
Proof.
  induction m as [|[k0 a0] m IH]; cbn [map_set map fst]; intros H.
  - destruct H as [<-|[]]. left. reflexivity.
  - destruct (String.eqb k k0) eqn:E; cbn [map fst] in H.
    + destruct H as [<-|H]; [left; reflexivity | right; right; exact H].
    + destruct H as [<-|H]; [right; left; reflexivity|].
      destruct (IH H) as [->|Hin]; [left; reflexivity | right; right; exact Hin].
Qed.

Lemma map_set_keys_distinct {A : Type} k (a : A) (m : list (string * A)) :
  NoDup (map fst m) -> NoDup (map fst (map_set k a m)).
Proof.
  induction m as [|[k0 a0] m IH]; cbn [map_set map fst]; intros Hnd.
  - constructor; [intros []|constructor].
  - apply NoDup_cons_iff in Hnd. destruct Hnd as [Hfresh Hnd].
    destruct (String.eqb k k0) eqn:E; cbn [map fst].
    + apply String.eqb_eq in E. subst k0. apply NoDup_cons_iff. tauto.
    + apply String.eqb_neq in E. apply NoDup_cons_iff. split; [|exact (IH Hnd)].
      intros Hin. apply map_set_keys in Hin. destruct Hin as [->|Hin].
      * apply E. reflexivity.
      * exact (Hfresh Hin).
Qed.

(** With distinct keys, the entries after [set] are the new one and the old
    ones under other keys. *)
Lemma map_set_entry_distinct {A : Type} k (a : A) (m : list (string * A)) e :
  NoDup (map fst m) ->
  In e (map_set k a m) -> e = (k, a) \/ (In e m /\ fst e <> k).
Proof.
  induction m as [|[k0 a0] m IH]; cbn [map_set map fst]; intros Hnd H.
  - destruct H as [<-|[]]. left. reflexivity.
  - apply NoDup_cons_iff in Hnd. destruct Hnd as [Hfresh Hnd].
    destruct (String.eqb k k0) eqn:E.
    + apply String.eqb_eq in E. subst k0. destruct H as [<-|H].
      * left. reflexivity.
      * right. split; [right; exact H|].
        intros Heq. apply Hfresh. rewrite <- Heq. apply in_map. exact H.
    + apply String.eqb_neq in E. destruct H as [<-|H].
      * right. split; [left; reflexivity|].
        cbn [fst]. intros Heq. apply E. symmetry. exact Heq.
      * destruct (IH Hnd H) as [->|[Hin Hne]].
        -- left. reflexivity.
        -- right. split; [right; exact Hin | exact Hne].
Qed.

Lemma mark_key_fst k n e : fst (mark_key k n e) = fst e.
Proof. unfold mark_key. destruct (String.eqb k (fst e)); reflexivity. Qed.

Lemma registered_accept clientId socket h created serverTime st :
  registered st ->
  ~ In socket (sockets st) ->
  registered (sse_accept clientId socket h created serverTime st).
Proof.
  intros [Hk Hr Hid Hm] Hfresh.
  destruct (sse_accept_spec clientId socket h created serverTime st)
    as [_ [Hw Hs]].
  split.
  - unfold keys. rewrite sse_accept_clients, map_map.
    rewrite (map_ext _ fst (mark_key_fst clientId _)).
    apply map_set_keys_distinct. exact Hk.
  - rewrite Hs. apply map_set_NoDup; [exact Hr | exact Hfresh].
  - rewrite sse_accept_clients. apply Forall_map. apply Forall_forall.
    intros e He. rewrite mark_key_fst.
    assert (Hide : id (snd e) = fst e).
    { destruct (map_set_entry_distinct _ _ _ e Hk He) as [->|[Hin _]];
        [reflexivity|]. rewrite Forall_forall in Hid. exact (Hid e Hin). }
    unfold mark_key. destruct (String.eqb clientId (fst e)); exact Hide.
  - rewrite sse_accept_clients. apply Forall_map. apply Forall_forall.
    intros e He. rewrite Hw, ids_seen_by_app, frame_seen.
    destruct (map_set_entry_distinct _ _ _ e Hk He) as [->|[Hin Hne]].
    + unfold mark_key. cbn [fst snd]. rewrite String.eqb_refl.
      cbn [snd marked res lastEventId]. rewrite Nat.eqb_refl.
      exists (globalEventSeq st). split; [apply last_id_snoc | reflexivity].
    + assert (E : String.eqb clientId (fst e) = false).
      { apply String.eqb_neq. intros Heq. apply Hne. symmetry. exact Heq. }
      unfold mark_key. rewrite E.
      assert (E' : Nat.eqb socket (res (snd e)) = false).
      { apply Nat.eqb_neq. intros Heq. apply Hfresh. rewrite Heq.
        apply (in_map (fun e => res (snd e))). exact Hin. }
      rewrite E', app_nil_r.
      rewrite Forall_forall in Hm. exact (Hm e Hin).
Qed.

Lemma map_delete_keys_distinct clientId (m : list (string * ClientConn)) :
  NoDup (map fst m) -> NoDup (map fst (map_delete clientId m)).
Proof.
  unfold map_delete.
  induction m as [|[k c] m IH]; intros Hnd; [exact Hnd|].
  cbn [map fst] in Hnd.
  apply NoDup_cons_iff in Hnd. destruct Hnd as [Hfresh Hrest].
  cbn [filter fst]. destruct (negb (String.eqb clientId k)).
  - cbn [map fst]. apply NoDup_cons_iff. split; [|exact (IH Hrest)].
    intros Hin. apply Hfresh.
    apply in_map_iff in Hin. destruct Hin as [e [He Hin]].
    apply filter_In in Hin. rewrite <- He. apply in_map. exact (proj1 Hin).
  - exact (IH Hrest).
Qed.

Lemma registered_close clientId st :
  registered st -> registered (sse_close clientId st).
Proof.
  intros [Hk Hr Hid Hm]. split.
  - unfold keys, sse_close. cbn [clients]. apply map_delete_keys_distinct. exact Hk.
  - unfold sockets, sse_close. cbn [clients]. apply map_delete_distinct. exact Hr.
  - unfold sse_close, map_delete. cbn [clients].
    apply Forall_forall. intros e He. apply filter_In in He.
    rewrite Forall_forall in Hid. exact (Hid e (proj1 He)).
  - unfold sse_close, map_delete. cbn [clients wire].
    apply Forall_forall. intros e He. apply filter_In in He.
    rewrite Forall_forall in Hm. exact (Hm e (proj1 He)).
Qed.

Lemma registered_step st a :
  registered st ->
  (forall s, In s (accepted [a]) -> ~ In s (sockets st)) ->
  registered (step st a).
Proof.
  intros H Hfresh.
  destruct (step_cases st a) as [Hc|[Hc|[_ [l Hc]]]].
  - destruct Hc as [c [s [h [cr [t ->]]]]]. unfold step.
    apply registered_accept; [exact H|]. apply Hfresh. left. reflexivity.
  - destruct Hc as [c ->]. unfold step. apply registered_close. exact H.
  - rewrite Hc. apply registered_emits. exact H.
Qed.

Lemma registered_run acts : forall st,
  registered st ->
  NoDup (accepted acts) ->
  (forall s, In s (accepted acts) -> ~ In s (sockets st)) ->
  registered (run acts st).
Proof.
  induction acts as [|a acts IH]; intros st H Hnd Hfresh; [exact H|].
  rewrite accepted_cons in Hnd, Hfresh.
  change (run (a :: acts) st) with (run acts (step st a)).
  apply IH.
  - apply registered_step; [exact H|].
    intros s Hs. apply Hfresh. apply in_or_app. left. exact Hs.
  - apply NoDup_app_remove_l in Hnd. exact Hnd.
  - intros s Hs Hin. apply step_sockets in Hin.
    apply in_app_or in Hin. destruct Hin as [Hin|Hin].
    + exact (NoDup_app_disjoint _ _ s Hnd Hin Hs).
    + apply (Hfresh s); [|exact Hin]. apply in_or_app. right. exact Hs.
Qed.

(** In every state a run reaches, each connection accepted on its own
    response object: the keys of the registry are distinct and so are the
    response objects; a connection is stored under its own [id]; and its
    [lastEventId] is the id of the last frame written to it - the server's
    record of what it sent, not what the client reported. *)
Theorem registry_keeps_its_shape (acts : list action) :
  NoDup (accepted acts) ->
  let st := run acts init in
  NoDup (keys st)
  /\ NoDup (sockets st)
  /\ (forall k c, In (k, c) (clients st) ->
        id c = k
        /\ exists i, last_id (ids_seen_by (res c) (wire st)) = Some i
                     /\ lastEventId c = num_of_Z i).
Proof.
  intros Hnd st.
  assert (H : registered st).
  { apply registered_run; [exact registered_init | exact Hnd | intros s _ []]. }
  destruct H as [Hk Hr Hid Hm].
  split; [exact Hk|]. split; [exact Hr|].
  intros k c Hin. rewrite Forall_forall in Hid, Hm. split.
  - exact (Hid (k, c) Hin).
  - exact (Hm (k, c) Hin).
Qed.

Lemma command_loop_until_null clock good bad rest : forall i acc st,
  Forall (fun r => nullish r = false) good ->
  nullish bad = true ->
  exists resps,
    List.length resps = List.length good
    /\ (forall k r, nth_error good k = Some r ->
          exists resp, nth_error resps k = Some resp
                       /\ handleRpc (clock (i + k)) r = Returned resp)
    /\ command_loop clock i (good ++ bad :: rest) acc st
       = (fold_left (fun s resp => broadcast "rpc" (response_to_value resp) s)
                    resps st,
          Thrown (TypeError (cannot_read (string_of bad) "jsonrpc"))).
Proof.
  induction good as [|r good IH]; intros i acc st Hall Hbad.
  - exists []. split; [reflexivity|]. split.
    + intros k r H. destruct k; discriminate H.
    + cbn [app command_loop]. unfold handleRpc. rewrite Hbad. reflexivity.
  - inversion Hall as [|x l Hr Hrest]; subst.
    destruct (server_handleRpc_returns (clock i) r Hr) as [resp [Hresp _]].
    destruct (IH (S i) (acc ++ [resp])%list
                 (broadcast "rpc" (response_to_value resp) st) Hrest Hbad)
      as [resps [Hlen [Hnth Hloop]]].
    exists (resp :: resps). split; [simpl; rewrite Hlen; reflexivity|]. split.
    + intros k r' Hk. destruct k as [|k]; simpl in Hk.
      * inversion Hk; subst. exists resp. rewrite Nat.add_0_r. split; auto.
      * destruct (Hnth k r' Hk) as [resp' [H1 H2]]. exists resp'.
        rewrite Nat.add_succ_r. split; assumption.
    + cbn [app command_loop]. rewrite Hresp, Hloop. reflexivity.
Qed.

(** A batch with an entry that is [null]: the entries before it are
    dispatched and their responses broadcast, in order; at the null entry
    [handleRpc] is rejected, the handler stops, and no reply is sent - for the
    entries already broadcast either.  The entries after it are never
    dispatched. *)
Theorem null_entry_stops_the_batch (clock : nat -> string)
  (good : list value) (bad : value) (rest : list value) (st : server_state) :
  Forall (fun r => nullish r = false) good ->
  nullish bad = true ->
  exists resps,
    List.length resps = List.length good
    /\ (forall k r, nth_error good k = Some r ->
          exists resp, nth_error resps k = Some resp
                       /\ handleRpc (clock k) r = Returned resp)
    /\ post_command clock (VArr (good ++ bad :: rest)) st
       = (fold_left (fun s resp => broadcast "rpc" (response_to_value resp) s)
                    resps st,
          Thrown (TypeError (cannot_read (string_of bad) "jsonrpc"))).
Proof.
  intros Hall Hbad.
  destruct (command_loop_until_null clock good bad rest 0 [] st Hall Hbad)
    as [resps [Hlen [Hnth Hloop]]].
  exists resps. split; [exact Hlen|]. split; [exact Hnth|].
  unfold post_command. rewrite Hloop. reflexivity.
Qed.

End RegistryInvariant.

Section Mirror.
Context {host : JsHost}.

Import Server.

Lemma received_broadcast_registered event data st r :
  NoDup (sockets st) -> In r (sockets st) ->
  received r (broadcast event data st)
  = (received r st
     ++ [IdLine (globalEventSeq st); EventLine event; DataLine data])%list.
Proof.
  intros Hnd Hin.
  destruct (broadcast_spec event data st) as [_ [Hw _]].
  rewrite (received_app r st _ _ Hw).
  rewrite (frames_received_present _ event data r (clients st) Hnd Hin).
  reflexivity.
Qed.

Lemma received_rpc_series r resps : forall st,
  NoDup (sockets st) -> In r (sockets st) ->
  received r (fold_left (fun s resp => broadcast "rpc" (response_to_value resp) s)
                        resps st)
  = (received r st ++ rpc_frames (globalEventSeq st) resps)%list.
Proof.
  induction resps as [|resp resps IH]; intros st Hnd Hin.
  - simpl. symmetry. apply app_nil_r.
  - cbn [fold_left rpc_frames].
    destruct (broadcast_spec "rpc" (response_to_value resp) st) as [Hs [_ Hk]].
    rewrite IH; [|rewrite Hk; exact Hnd|rewrite Hk; exact Hin].
    rewrite Hs, (received_broadcast_registered _ _ st r Hnd Hin).
    rewrite <- app_assoc. reflexivity.
Qed.

(** What the command endpoint replies is what the listeners see: for a batch
    of request objects, every registered connection is sent one [rpc] frame
    per response of the reply, in the order of the reply, each carrying that
    response as data and the next sequence id. *)
Theorem rpc_events_mirror_the_reply (clock : nat -> string) (reqs : list value)
  (st : server_state) (r : nat) :
  Forall (fun q => nullish q = false) reqs ->
  NoDup (sockets st) ->
  In r (sockets st) ->
  exists resps,
    snd (post_command clock (VArr reqs) st)
    = Returned (VArr (map response_to_value resps))
    /\ received r (fst (post_command clock (VArr reqs) st))
       = (received r st ++ rpc_frames (globalEventSeq st) resps)%list.
Proof.
  intros Hall Hnd Hin.
  destruct (command_loop_all clock reqs 0 [] st Hall) as [resps [_ [_ Hloop]]].
  exists resps. unfold post_command. rewrite Hloop. cbn [fst snd is_array].
  split; [reflexivity|]. apply received_rpc_series; assumption.
Qed.

End Mirror.

(* ================================================================== *)
(** * Further properties of the stdio transport *)
(* ================================================================== *)

Section LineSplitting.

Import Tavily.

Lemma append_assoc (a b c : string) : ((a ++ b) ++ c)%string = (a ++ (b ++ c))%string.
Proof. induction a as [|x a IH]; simpl; [reflexivity | rewrite IH; reflexivity]. Qed.

Lemma lines_and_rest_partial (s : string) :
  index_of_newline s = None -> lines_and_rest s = ([], s).
Proof.
  induction s as [|c s IH]; cbn [index_of_newline lines_and_rest]; intros H;
    [reflexivity|].
  destruct (Ascii.eqb c newline); [discriminate H|].
  destruct (index_of_newline s); [discriminate H|].
  rewrite (IH eq_refl). reflexivity.
Qed.

Lemma lines_and_rest_first (raw rest : string) :
  index_of_newline raw = None ->
  lines_and_rest (raw ++ String newline rest)
  = (raw :: fst (lines_and_rest rest), snd (lines_and_rest rest)).
Proof.
  induction raw as [|c raw IH]; cbn [index_of_newline append lines_and_rest];
    intros H.
  - rewrite Ascii.eqb_refl. destruct (lines_and_rest rest). reflexivity.
  - destruct (Ascii.eqb c newline); [discriminate H|].
    destruct (index_of_newline raw); [discriminate H|].
    rewrite (IH eq_refl). reflexivity.
Qed.

(** Where [indexOf] finds the line feed, the two [slice] calls cut the
    buffer into the first line and what follows it. *)
Lemma cut_at_newline (s : string) : forall idx,
  index_of_newline s = Some idx ->
  s = (slice_to idx s ++ String newline (slice_from (S idx) s))%string
  /\ index_of_newline (slice_to idx s) = None.
Proof.
  unfold slice_to, slice_from.
  induction s as [|c s IH]; cbn [index_of_newline]; intros idx H; [discriminate H|].
  destruct (Ascii.eqb c newline) eqn:E.
  - inversion H; subst idx. apply Ascii.eqb_eq in E. subst c.
    cbn [substring String.length].
    replace (S (String.length s) - 1) with (String.length s) by lia.
    cbn [append]. rewrite substring_all. split; reflexivity.
  - destruct (index_of_newline s) as [i|]; [|discriminate H].
    inversion H; subst idx.
    destruct (IH i eq_refl) as [Hs Hn].
    cbn [substring String.length append index_of_newline].
    rewrite E, Hn. split; [|reflexivity].
    replace (S (String.length s) - S (S i)) with (String.length s - S i) by lia.
    rewrite <- Hs. reflexivity.
Qed.

Lemma lines_and_rest_app (s t : string) :
  lines_and_rest (s ++ t)
  = ((fst (lines_and_rest s)
      ++ fst (lines_and_rest (snd (lines_and_rest s) ++ t)))%list,
     snd (lines_and_rest (snd (lines_and_rest s) ++ t))).
Proof.
  induction s as [|c s IH]; cbn [append lines_and_rest].
  - cbn [fst snd app append]. destruct (lines_and_rest t). reflexivity.
  - rewrite IH. destruct (lines_and_rest s) as [l1 r1]. cbn [fst snd].
    destruct (Ascii.eqb c newline) eqn:E; cbn [fst snd]; [reflexivity|].
    destruct l1 as [|l l1]; cbn [fst snd app append lines_and_rest].
    + rewrite E. destruct (lines_and_rest (r1 ++ t)) as [l2 r2]. cbn [fst snd].
      destruct l2; reflexivity.
    + reflexivity.
Qed.

(** The split loses nothing and cuts at every line feed. *)
Lemma lines_and_rest_sound (s : string) :
  s = fold_right (fun l acc => (l ++ String newline acc)%string)
                 (snd (lines_and_rest s)) (fst (lines_and_rest s))
  /\ Forall (fun l => index_of_newline l = None) (fst (lines_and_rest s))
  /\ index_of_newline (snd (lines_and_rest s)) = None.
Proof.
  induction s as [|c s IH]; cbn [lines_and_rest].
  - repeat split. constructor.
  - destruct (lines_and_rest s) as [ls rest]. cbn [fst snd] in IH.
    destruct IH as [Hs [Hls Hrest]].
    destruct (Ascii.eqb c newline) eqn:E; cbn [fst snd fold_right].
    + apply Ascii.eqb_eq in E. subst c. cbn [append].
      rewrite <- Hs. repeat split; [|exact Hrest]. constructor; [reflexivity | exact Hls].
    + destruct ls as [|l ls]; cbn [fst snd fold_right] in *.
      * subst s. repeat split; [constructor|].
        cbn [index_of_newline]. rewrite E, Hrest. reflexivity.
      * rewrite Hs at 1. cbn [append]. repeat split; [|exact Hrest].
        inversion Hls as [|x y Hl Hls']; subst. constructor; [|exact Hls'].
        cbn [index_of_newline]. rewrite E, Hl. reflexivity.
Qed.

End LineSplitting.

Section LoopAtRest.
Context {host : JsHost}.

(** Without a line feed in the buffer the loop does not run. *)
Lemma loop_without_newline apiKey search JSON_parse (st : Tavily.stdio_state) :
  Tavily.index_of_newline (Tavily.buffer st) = None ->
  Tavily.stdin_loop apiKey search JSON_parse st = st.
Proof.
  intros H. exact (stdin_loop_unfold apiKey search JSON_parse st None H).
Qed.

End LoopAtRest.

Section StdioFurther.
Context {host : JsHost}.
Variable apiKey : value.
Variable search : value -> outcome value.
Variable JSON_parse : string -> outcome value.

Import Tavily.

Local Abbreviation whole_loop := (stdin_loop apiKey search JSON_parse).
Local Abbreviation body := (on_line apiKey search JSON_parse).
Local Abbreviation feed := (on_data apiKey search JSON_parse).
Local Abbreviation lines_body := (each_line apiKey search JSON_parse).

Lemma set_buffer_twice b b' st : set_buffer b (set_buffer b' st) = set_buffer b st.
Proof. reflexivity. Qed.

Lemma set_buffer_same st : set_buffer (buffer st) st = st.
Proof. destruct st. reflexivity. Qed.

Lemma on_line_set_buffer line b st :
  body line (set_buffer b st) = set_buffer b (body line st).
Proof.
  unfold on_line. destruct (String.eqb line ""); [reflexivity|].
  destruct (JSON_parse line); reflexivity.
Qed.

Lemma each_line_set_buffer ls : forall b st,
  lines_body ls (set_buffer b st) = set_buffer b (lines_body ls st).
Proof.
  induction ls as [|l ls IH]; intros b st; [reflexivity|].
  unfold each_line. cbn [fold_left]. rewrite on_line_set_buffer. apply IH.
Qed.

Lemma each_line_app l1 l2 st :
  lines_body (l1 ++ l2) st = lines_body l2 (lines_body l1 st).
Proof. unfold each_line. apply fold_left_app. Qed.

(** The loop runs its body on the complete lines of the buffer, first to
    last, and leaves what follows the last line feed. *)
Lemma stdin_loop_lines (n : nat) : forall st,
  String.length (buffer st) < n ->
  whole_loop st
  = set_buffer (snd (lines_and_rest (buffer st)))
               (lines_body (fst (lines_and_rest (buffer st))) st).
Proof.
  induction n as [|n IH]; intros st Hn; [lia|].
  destruct (index_of_newline (buffer st)) as [idx|] eqn:E.
  - destruct (cut_at_newline (buffer st) idx E) as [Hcut Hraw].
    pose proof (slice_from_shorter (buffer st) idx E) as Hshort.
    set (raw := slice_to idx (buffer st)) in *.
    set (rest := slice_from (S idx) (buffer st)) in *.
    clearbody raw rest.
    rewrite (stdin_loop_first_line apiKey search JSON_parse raw rest st Hraw Hcut).
    rewrite IH; [|rewrite on_line_buffer; cbn [set_buffer buffer]; lia].
    rewrite on_line_buffer. cbn [set_buffer buffer].
    rewrite Hcut, (lines_and_rest_first raw rest Hraw).
    cbn [fst snd].
    change (lines_body (raw :: fst (lines_and_rest rest)) st)
      with (lines_body (fst (lines_and_rest rest)) (body (trim raw) st)).
    change {| buffer := rest; stdout := stdout st; pending := pending st |}
      with (set_buffer rest st).
    rewrite on_line_set_buffer, each_line_set_buffer. reflexivity.
  - rewrite (loop_without_newline apiKey search JSON_parse st E).
    rewrite (lines_and_rest_partial _ E). cbn [fst snd each_line fold_left].
    symmetry. apply set_buffer_same.
Qed.

Lemma on_data_lines chunk st :
  feed chunk st
  = set_buffer (snd (lines_and_rest (buffer st ++ chunk)))
               (lines_body (fst (lines_and_rest (buffer st ++ chunk))) st).
Proof.
  unfold on_data.
  rewrite (stdin_loop_lines (S (String.length (buffer st ++ chunk))));
    [|cbn [set_buffer buffer]; lia].
  cbn [set_buffer buffer]. rewrite each_line_set_buffer. reflexivity.
Qed.

(** The [while] loop with [indexOf] and [slice] is a line splitter: it runs
    its body on each complete line of the buffer, trimmed, first to last,
    and keeps what follows the last line feed; the lines and the remainder
    put back together with line feeds are the buffer, and the buffer it
    leaves holds no line feed. *)
Theorem stdin_loop_processes_lines (st : stdio_state) :
  let ls := fst (lines_and_rest (buffer st)) in
  let rest := snd (lines_and_rest (buffer st)) in
  whole_loop st
  = set_buffer rest (fold_left (fun s l => body (trim l) s) ls st)
  /\ buffer st
     = fold_right (fun l acc => (l ++ String newline acc)%string) rest ls
  /\ Forall (fun l => index_of_newline l = None) ls
  /\ index_of_newline (buffer (whole_loop st)) = None.
Proof.
  intros ls rest.
  pose proof (stdin_loop_lines (S (String.length (buffer st))) st
                (Nat.lt_succ_diag_r _)) as E.
  destruct (lines_and_rest_sound (buffer st)) as [Hs [Hls Hrest]].
  split; [exact E|]. split; [exact Hs|]. split; [exact Hls|].
  rewrite E. exact Hrest.
Qed.

(** How the input is cut into chunks does not matter: two chunks one after
    the other leave the transport in the state the two joined in one chunk
    leave it in - same buffer, same lines written, same dispatches started. *)
Theorem chunking_is_irrelevant (a b : string) (st : stdio_state) :
  feed b (feed a st) = feed (a ++ b) st.
Proof.
  rewrite (on_data_lines b (feed a st)).
  rewrite (on_data_lines a st), (on_data_lines (a ++ b) st).
  cbn [set_buffer buffer].
  rewrite <- append_assoc.
  rewrite (lines_and_rest_app (buffer st ++ a) b). cbn [fst snd].
  rewrite each_line_app, each_line_set_buffer. reflexivity.
Qed.

(** A chunk that brings no line feed is only added to the buffer: nothing is
    parsed, written or dispatched, however long the pending line gets. *)
Theorem partial_line_is_buffered (chunk : string) (st : stdio_state) :
  index_of_newline (buffer st ++ chunk) = None ->
  feed chunk st = set_buffer (buffer st ++ chunk) st.
Proof.
  intros H. unfold on_data.
  exact (loop_without_newline apiKey search JSON_parse
           (set_buffer (buffer st ++ chunk) st) H).
Qed.

(** A line that is empty once trimmed - empty, blanks, a lone carriage
    return - is dropped: no parse, no output line, no dispatch. *)
Theorem blank_line_is_skipped (st : stdio_state) (raw rest : string) :
  buffer st = (raw ++ String newline rest)%string ->
  index_of_newline raw = None ->
  trim raw = "" ->
  whole_loop st = whole_loop (set_buffer rest st).
Proof.
  intros Hbuf Hraw Hblank.
  rewrite (stdin_loop_first_line apiKey search JSON_parse raw rest st Hraw Hbuf).
  unfold on_line. rewrite Hblank. reflexivity.
Qed.

(** A line that parses starts one dispatch and writes nothing by itself:
    the promise of [handleRpc] on the parsed value joins the pending ones,
    and the loop goes on with the rest of the buffer. *)
Theorem parsed_line_is_dispatched (st : stdio_state) (raw rest : string)
  (req : value) :
  buffer st = (raw ++ String newline rest)%string ->
  index_of_newline raw = None ->
  trim raw <> "" ->
  JSON_parse (trim raw) = Returned req ->
  whole_loop st
  = whole_loop {| buffer := rest;
                  stdout := stdout st;
                  pending := pending st ++ [handleRpc apiKey search req] |}.
Proof.
  intros Hbuf Hraw Hne Hparse.
  rewrite (stdin_loop_first_line apiKey search JSON_parse raw rest st Hraw Hbuf).
  f_equal. unfold on_line.
  destruct (String.eqb (trim raw) "") eqn:Eq.
  - apply String.eqb_eq in Eq. contradiction.
  - rewrite Hparse. reflexivity.
Qed.

Lemma on_line_counts line st :
  List.length (stdout (body line st)) + List.length (pending (body line st))
  = List.length (stdout st) + List.length (pending st)
    + (if String.eqb line "" then 0 else 1).
Proof.
  unfold on_line. destruct (String.eqb line ""); [lia|].
  destruct (JSON_parse line); cbn [stdout pending]; rewrite length_app;
    cbn [List.length]; lia.
Qed.

Lemma each_line_counts ls : forall st,
  List.length (stdout (lines_body ls st)) + List.length (pending (lines_body ls st))
  = List.length (stdout st) + List.length (pending st)
    + List.length (filter nonblank ls).
Proof.
  induction ls as [|l ls IH]; intros st; [simpl; lia|].
  unfold each_line. cbn [fold_left].
  fold (lines_body ls (body (trim l) st)). rewrite IH, on_line_counts.
  cbn [filter]. unfold nonblank at 2.
  destruct (String.eqb (trim l) ""); cbn [negb List.length]; lia.
Qed.

(** Every complete line that is not blank is accounted for exactly once: it
    either wrote its parse error at once or started one dispatch.  Blank
    lines and the unfinished last line account for nothing. *)
Theorem every_line_counted (chunk : string) (st : stdio_state) :
  List.length (stdout (feed chunk st)) + List.length (pending (feed chunk st))
  = List.length (stdout st) + List.length (pending st)
    + List.length (filter nonblank (fst (lines_and_rest (buffer st ++ chunk)))).
Proof.
  rewrite on_data_lines. cbn [set_buffer stdout pending]. apply each_line_counts.
Qed.

Lemma skipn_nth {A : Type} (l : list A) : forall k p,
  nth_error l k = Some p -> skipn k l = p :: skipn (S k) l.
Proof.
  induction l as [|x l IH]; intros k p H; destruct k; try discriminate H.
  - inversion H. reflexivity.
  - cbn [nth_error] in H. exact (IH k p H).
Qed.

Lemma fulfilled_app (a b : list (outcome response)) :
  fulfilled (a ++ b) = fulfilled a + fulfilled b.
Proof. unfold fulfilled. rewrite filter_app, length_app. reflexivity. Qed.

(** When a promise settles: a fulfilled one leaves the pending list and
    writes its one response line, a rejected one leaves it and writes
    nothing; the lines written plus the fulfilled promises still pending stay
    the same number.  Settling what is not pending changes nothing. *)
Theorem settle_writes_at_most_one_line (k : nat) (st : stdio_state) :
  List.length (stdout (settle k st)) + fulfilled (pending (settle k st))
  = List.length (stdout st) + fulfilled (pending st)
  /\ buffer (settle k st) = buffer st
  /\ match nth_error (pending st) k with
     | Some (Returned resp) =>
         stdout (settle k st) = (stdout st ++ [response_to_value resp])%list
         /\ S (List.length (pending (settle k st))) = List.length (pending st)
     | Some (Thrown _) =>
         stdout (settle k st) = stdout st
         /\ S (List.length (pending (settle k st))) = List.length (pending st)
     | None => settle k st = st
     end.
Proof.
  unfold settle.
  destruct (nth_error (pending st) k) as [p|] eqn:E.
  - assert (Hsplit : pending st
                     = (firstn k (pending st) ++ p :: skipn (S k) (pending st))%list).
    { rewrite <- (skipn_nth _ _ _ E). symmetry. apply firstn_skipn. }
    assert (Hlen : S (List.length (firstn k (pending st) ++ skipn (S k) (pending st)))
                   = List.length (pending st)).
    { rewrite Hsplit at 3. rewrite !length_app. cbn [List.length]. lia. }
    assert (Hful : fulfilled (pending st)
                   = fulfilled (firstn k (pending st) ++ skipn (S k) (pending st))
                     + fulfilled [p]).
    { rewrite Hsplit at 1. rewrite !fulfilled_app.
      change (p :: skipn (S k) (pending st))
        with ([p] ++ skipn (S k) (pending st))%list.
      rewrite fulfilled_app. lia. }
    cbn [stdout pending buffer]. split; [|split; [reflexivity|]].
    + rewrite Hful. destruct p; [rewrite length_app|]; cbn; lia.
    + destruct p; split; try reflexivity; exact Hlen.
  - repeat split.
Qed.

(** A line and the promise it started: when the promise settles it leaves
    the pending list as it was before the line; a request that is [null] or
    [undefined] has been rejected and is never answered; any other request is
    answered by one line, its response, carrying its id. *)
Theorem dispatched_line_settles (line : string) (req : value)
  (st : stdio_state) :
  line <> "" ->
  JSON_parse line = Returned req ->
  let st' := settle (List.length (pending st)) (body line st) in
  buffer st' = buffer st
  /\ pending st' = pending st
  /\ (if nullish req then stdout st' = stdout st
      else exists resp,
             handleRpc apiKey search req = Returned resp
             /\ response_id resp = reply_id req
             /\ stdout st' = (stdout st ++ [response_to_value resp])%list).
Proof.
  intros Hne Hparse st'. subst st'.
  unfold on_line.
  destruct (String.eqb line "") eqn:Eq; [apply String.eqb_eq in Eq; contradiction|].
  rewrite Hparse. unfold settle. cbn [pending stdout buffer].
  assert (Hn : nth_error (pending st ++ [handleRpc apiKey search req])
                         (List.length (pending st))
               = Some (handleRpc apiKey search req)).
  { rewrite nth_error_app2, Nat.sub_diag; [reflexivity | lia]. }
  rewrite Hn. cbn [pending stdout buffer].
  assert (Hp : (firstn (List.length (pending st))
                       (pending st ++ [handleRpc apiKey search req])
                ++ skipn (S (List.length (pending st)))
                         (pending st ++ [handleRpc apiKey search req]))%list
               = pending st).
  { rewrite firstn_app, Nat.sub_diag, firstn_all. cbn [firstn].
    rewrite skipn_all2; [rewrite !app_nil_r; reflexivity|].
    rewrite length_app. cbn [List.length]. lia. }
  split; [reflexivity|]. split; [exact Hp|].
  destruct (nullish req) eqn:Hnull.
  - destruct (handleRpc_rejects_nullish EmptyString apiKey search req Hnull)
      as [_ [e He]].
    rewrite He. reflexivity.
  - destruct (tavily_handleRpc_returns apiKey search req Hnull) as [resp [Hr Hid]].
    exists resp. rewrite Hr. repeat split. exact Hid.
Qed.

(** Answers do not come in the order of the lines: when a line that parses is
    followed, in the same buffer, by a line that does not, the parse error
    of the second is written during the loop, and the response to the first
    only when its promise settles, after it. *)
Theorem parse_error_overtakes_response (st : stdio_state)
  (first second rest : string) (req : value) (e : thrown) :
  buffer st = (first ++ String newline (second ++ String newline rest))%string ->
  index_of_newline first = None ->
  index_of_newline second = None ->
  index_of_newline rest = None ->
  trim first <> "" ->
  JSON_parse (trim first) = Returned req ->
  nullish req = false ->
  trim second <> "" ->
  JSON_parse (trim second) = Thrown e ->
  exists resp,
    handleRpc apiKey search req = Returned resp
    /\ whole_loop st
       = {| buffer := rest;
            stdout := stdout st ++ [response_to_value (parse_error e)];
            pending := pending st ++ [Returned resp] |}
    /\ stdout (settle (List.length (pending st)) (whole_loop st))
       = (stdout st ++ [response_to_value (parse_error e);
                        response_to_value resp])%list.
Proof.
  intros Hbuf H1 H2 H3 Hne1 Hp1 Hnn Hne2 Hp2.
  destruct (tavily_handleRpc_returns apiKey search req Hnn) as [resp [Hr _]].
  exists resp. split; [exact Hr|].
  assert (E : whole_loop st
              = {| buffer := rest;
                   stdout := stdout st ++ [response_to_value (parse_error e)];
                   pending := pending st ++ [Returned resp] |}).
  { rewrite (stdin_loop_first_line apiKey search JSON_parse first
               (second ++ String newline rest) st H1 Hbuf).
    rewrite (stdin_loop_first_line apiKey search JSON_parse second rest _ H2);
      [|rewrite on_line_buffer; reflexivity].
    rewrite loop_without_newline;
      [|rewrite on_line_buffer; cbn [set_buffer buffer]; exact H3].
    unfold on_line.
    destruct (String.eqb (trim first) "") eqn:Eq1;
      [apply String.eqb_eq in Eq1; contradiction|].
    destruct (String.eqb (trim second) "") eqn:Eq2;
      [apply String.eqb_eq in Eq2; contradiction|].
    rewrite Hp1, Hp2, Hr. reflexivity. }
  split; [exact E|].
  rewrite E. unfold settle. cbn [pending stdout buffer].
  rewrite nth_error_app2, Nat.sub_diag; [|lia].
  cbn [nth_error stdout]. rewrite <- app_assoc. reflexivity.
Qed.

End StdioFurther.

(* ================================================================== *)
(** * The further theorems at sample inputs *)
(* ================================================================== *)

Ltac distinct_numbers :=
  repeat (apply NoDup_cons; [simpl; intuition discriminate|]); apply NoDup_nil.

Lemma close_removes_one_connection_witness :
  Server.sse_close "nobody" SampleHost.two_clients = SampleHost.two_clients
  /\ assoc "c2" (Server.clients (Server.sse_close "c1" SampleHost.two_clients))
     = assoc "c2" (Server.clients SampleHost.two_clients).
Proof.
  destruct (close_removes_one_connection "nobody" SampleHost.two_clients)
    as [_ [_ [_ [_ [_ Habsent]]]]].
  destruct (close_removes_one_connection "c1" SampleHost.two_clients)
    as [_ [Hother _]].
  split.
  - exact (Habsent eq_refl).
  - apply Hother. discriminate.
Defined.

Lemma accept_registers_connection_witness :
  assoc "c1" (Server.clients
                (Server.sse_accept "c3" 2 (Some "41") 1003%Z SampleHost.clock
                   SampleHost.two_clients))
  = assoc "c1" (Server.clients SampleHost.two_clients)
  /\ received 0 (Server.sse_accept "c3" 2 (Some "41") 1003%Z SampleHost.clock
                   SampleHost.two_clients)
     = received 0 SampleHost.two_clients.
Proof.
  destruct (accept_registers_connection "c3" 2 (Some "41") 1003%Z
              SampleHost.clock SampleHost.two_clients)
    as [_ [Hother [_ [Hquiet _]]]].
  split.
  - apply Hother. discriminate.
  - apply Hquiet. discriminate.
Defined.

Lemma broadcast_delivers_one_frame_witness :
  received 1 (Server.broadcast "tick" VNull SampleHost.two_clients)
  = (received 1 SampleHost.two_clients
     ++ [Server.IdLine 3; Server.EventLine "tick"; Server.DataLine VNull])%list.
Proof.
  assert (Hnd : NoDup (sockets SampleHost.two_clients)) by distinct_numbers.
  exact (broadcast_delivers_one_frame "tick" VNull SampleHost.two_clients 1 Hnd).
Defined.

Lemma closed_connection_gets_nothing_witness :
  received 0 (Server.run SampleHost.afterwards
                (Server.sse_close "c1" SampleHost.two_clients))
  = received 0 SampleHost.two_clients.
Proof.
  assert (Hnd : NoDup (sockets SampleHost.two_clients)) by distinct_numbers.
  assert (Hin : In ("c1", SampleHost.first_client)
                   (Server.clients SampleHost.two_clients))
    by (left; reflexivity).
  assert (Hacc : ~ In (Server.res SampleHost.first_client)
                      (accepted SampleHost.afterwards))
    by (simpl; intuition discriminate).
  exact (proj1 (closed_connection_gets_nothing SampleHost.two_clients "c1"
                  SampleHost.first_client SampleHost.afterwards Hnd Hin Hacc)).
Defined.

Lemma registry_keeps_its_shape_witness :
  NoDup (keys (Server.run (SampleHost.session (Some "41")) Server.init))
  /\ NoDup (sockets (Server.run (SampleHost.session (Some "41")) Server.init)).
Proof.
  assert (Hnd : NoDup (accepted (SampleHost.session (Some "41"))))
    by distinct_numbers.
  destruct (registry_keeps_its_shape (SampleHost.session (Some "41")) Hnd)
    as [Hk [Hr _]].
  split; [exact Hk | exact Hr].
Defined.

Lemma null_entry_stops_the_batch_witness :
  exists resps,
    List.length resps = 2
    /\ Server.post_command (fun _ => SampleHost.clock)
         (VArr (SampleHost.batch
                ++ VNull :: [SampleHost.request VNull "ping" VUndefined]))
         Server.init
       = (fold_left (fun s resp => Server.broadcast "rpc" (response_to_value resp) s)
                    resps Server.init,
          Thrown (TypeError "Cannot read properties of null (reading 'jsonrpc')")).
Proof.
  assert (Hall : Forall (fun r => nullish r = false) SampleHost.batch).
  { repeat (apply Forall_cons; [reflexivity|]). apply Forall_nil. }
  destruct (null_entry_stops_the_batch (fun _ => SampleHost.clock)
              SampleHost.batch VNull
              [SampleHost.request VNull "ping" VUndefined] Server.init
              Hall eq_refl)
    as [resps [Hlen [_ Hpost]]].
  exists resps. split; [exact Hlen | exact Hpost].
Defined.

Lemma partial_line_is_buffered_witness :
  Tavily.on_data SampleHost.no_key SampleHost.no_search SampleHost.parse
    "json" SampleHost.half_line
  = Tavily.set_buffer "not-json" SampleHost.half_line.
Proof.
  exact (partial_line_is_buffered SampleHost.no_key SampleHost.no_search
           SampleHost.parse "json" SampleHost.half_line eq_refl).
Defined.

Lemma blank_line_is_skipped_witness :
  Tavily.stdin_loop SampleHost.no_key SampleHost.no_search SampleHost.parse
    (Tavily.set_buffer (" " ++ String (ascii_of_nat 13) (String Tavily.newline "[]"))
       SampleHost.half_line)
  = Tavily.stdin_loop SampleHost.no_key SampleHost.no_search SampleHost.parse
      (Tavily.set_buffer "[]" SampleHost.half_line).
Proof.
  exact (blank_line_is_skipped SampleHost.no_key SampleHost.no_search
           SampleHost.parse
           (Tavily.set_buffer
              (" " ++ String (ascii_of_nat 13) (String Tavily.newline "[]"))
              SampleHost.half_line)
           (" " ++ String (ascii_of_nat 13) "") "[]"
           eq_refl eq_refl eq_refl).
Defined.

Lemma parsed_line_is_dispatched_witness :
  Tavily.stdin_loop SampleHost.no_key SampleHost.no_search SampleHost.parse
    (Tavily.set_buffer ("[]" ++ String Tavily.newline "") SampleHost.half_line)
  = Tavily.stdin_loop SampleHost.no_key SampleHost.no_search SampleHost.parse
      {| Tavily.buffer := "";
         Tavily.stdout := [];
         Tavily.pending :=
           [Tavily.handleRpc SampleHost.no_key SampleHost.no_search (VArr [])] |}.
Proof.
  assert (Hne : Tavily.trim "[]" <> "") by discriminate.
  exact (parsed_line_is_dispatched SampleHost.no_key SampleHost.no_search
           SampleHost.parse
           (Tavily.set_buffer ("[]" ++ String Tavily.newline "") SampleHost.half_line)
           "[]" "" (VArr []) eq_refl eq_refl Hne eq_refl).
Defined.

Lemma dispatched_line_settles_witness :
  exists resp,
    Tavily.handleRpc SampleHost.no_key SampleHost.no_search (VArr []) = Returned resp
    /\ response_id resp = VNull
    /\ Tavily.stdout
         (Tavily.settle 0
            (Tavily.on_line SampleHost.no_key SampleHost.no_search
               SampleHost.parse "[]" SampleHost.half_line))
       = [response_to_value resp].
Proof.
  assert (Hne : "[]" <> "") by discriminate.
  destruct (dispatched_line_settles SampleHost.no_key SampleHost.no_search
              SampleHost.parse "[]" (VArr []) SampleHost.half_line Hne eq_refl)
    as [_ [_ [resp [Hr [Hid Hout]]]]].
  exists resp. split; [exact Hr|]. split; [exact Hid | exact Hout].
Defined.

Lemma rpc_events_mirror_the_reply_witness :
  exists resps,
    snd (Server.post_command (fun _ => SampleHost.clock) (VArr SampleHost.batch)
           SampleHost.two_clients)
    = Returned (VArr (map response_to_value resps))
    /\ received 1 (fst (Server.post_command (fun _ => SampleHost.clock)
                          (VArr SampleHost.batch) SampleHost.two_clients))
       = (received 1 SampleHost.two_clients ++ rpc_frames 3 resps)%list.
Proof.
  assert (Hall : Forall (fun r => nullish r = false) SampleHost.batch).
  { repeat (apply Forall_cons; [reflexivity|]). apply Forall_nil. }
  assert (Hnd : NoDup (sockets SampleHost.two_clients)) by distinct_numbers.
  assert (Hin : In 1 (sockets SampleHost.two_clients))
    by (right; left; reflexivity).
  exact (rpc_events_mirror_the_reply (fun _ => SampleHost.clock) SampleHost.batch
           SampleHost.two_clients 1 Hall Hnd Hin).
Defined.

Lemma parse_error_overtakes_response_witness :
  exists resp,
    Tavily.handleRpc SampleHost.no_key SampleHost.no_search (VArr []) = Returned resp
    /\ Tavily.stdout
         (Tavily.settle 0
            (Tavily.stdin_loop SampleHost.no_key SampleHost.no_search
               SampleHost.parse
               (Tavily.set_buffer
                  ("[]" ++ String Tavily.newline ("oops" ++ String Tavily.newline "["))
                  SampleHost.half_line)))
       = [response_to_value
            (Tavily.parse_error
               {| thrown_message := VStr "Unexpected token o in JSON at position 1";
                  thrown_stack := VStr "SyntaxError" |});
          response_to_value resp].
Proof.
  assert (Hne1 : Tavily.trim "[]" <> "") by discriminate.
  assert (Hne2 : Tavily.trim "oops" <> "") by discriminate.
  destruct (parse_error_overtakes_response SampleHost.no_key SampleHost.no_search
              SampleHost.parse
              (Tavily.set_buffer
                 ("[]" ++ String Tavily.newline ("oops" ++ String Tavily.newline "["))
                 SampleHost.half_line)
              "[]" "oops" "[" (VArr [])
              {| thrown_message := VStr "Unexpected token o in JSON at position 1";
                 thrown_stack := VStr "SyntaxError" |}
              eq_refl eq_refl eq_refl eq_refl Hne1 eq_refl eq_refl Hne2 eq_refl)
    as [resp [Hr [_ Hout]]].
  exists resp. split; [exact Hr | exact Hout].
Defined.
